(** * Market data refresh and watch list of [server/market-service.ts]

    A shallow embedding of [MarketDataService] (server/market-service.ts)
    together with the two tables it works on, [watched_assets] and
    [market_data] (shared/schema.ts).

    The service is asynchronous, stateful and throwing.  An [async] method
    is a function from the world to an outcome and a new world; a thrown
    error keeps every effect that happened before it.  The world holds the
    two tables, the wall clock, and a trace of what the service did to the
    outside: the HTTP requests it issued, the timers it waited for and the
    console lines it wrote.  What the outside answers (the replies of the
    quote provider, the time an awaited operation takes, the values of
    [Math.random]) is an oracle, [Upstream].

    Two pieces of the platform decide what the code does and are modelled
    as they behave:
    - PostgreSQL accepts [ON CONFLICT (columns) DO UPDATE] only when a
      unique index on those columns exists, so a table comes with the
      unique indexes its declaration in shared/schema.ts gives it;
    - [EXCHANGE_STOCKS] is an object literal, so indexing it with a string
      also finds the members inherited from [Object.prototype].

    Numbers are rationals: the digits of IEEE rounding and of
    [Number.prototype.toString] are not modelled, and a decimal column holds
    the number itself.  Column values are taken to fit the declared widths
    of their columns, and the database to be reachable.  The news endpoints
    take no part in the refresh and are left out. *)

From Stdlib Require Import List String Ascii Bool ZArith QArith Qround Lia.
From Stdlib Require Import Permutation Sorted Lqa.
Import ListNotations.

Local Open Scope string_scope.
Local Open Scope Z_scope.

(* ===================================================================== *)
(** ** The JavaScript runtime the service relies on *)
(* ===================================================================== *)

Module Js.

(** [a || b] on values that are a string or [undefined]/[null]: the empty
    string and [undefined] are falsy. *)
Definition truthy (a : option string) : bool :=
  match a with
  | Some s => negb (s =? "")%string
  | None => false
  end.

Definition or (a b : option string) : option string :=
  if truthy a then a else b.

(** [a || "literal"]: the chain ends in a string. *)
Definition or_else (a : option string) (b : string) : string :=
  match or a (Some b) with
  | Some s => s
  | None => b
  end.

(** [s.startsWith(p)] *)
Fixpoint startsWith (p s : string) : bool :=
  match p, s with
  | EmptyString, _ => true
  | String a p', String b s' => Ascii.eqb a b && startsWith p' s'
  | String _ _, EmptyString => false
  end.

(** [s.includes(p)]: [p] occurs somewhere in [s]. *)
Fixpoint includes (s p : string) : bool :=
  startsWith p s ||
  match s with
  | EmptyString => false
  | String _ s' => includes s' p
  end.

(** [s.endsWith(p)] *)
Fixpoint endsWith (s p : string) : bool :=
  (s =? p)%string ||
  match s with
  | EmptyString => false
  | String _ s' => endsWith s' p
  end.

(** [s.split(sep)] for a one-character separator. *)
Fixpoint split (sep : ascii) (s : string) : list string :=
  match s with
  | EmptyString => [EmptyString]
  | String a s' =>
      if Ascii.eqb a sep then EmptyString :: split sep s'
      else match split sep s' with
           | [] => [String a EmptyString]
           | w :: ws => String a w :: ws
           end
  end.

(** [Math.round(x)]: the integer nearest to [x], halves going up. *)
Definition Math_round (x : Q) : Z := Qfloor (x + (1 # 2)).

(** The members every object literal inherits from [Object.prototype].
    All of them are truthy, and none of them is iterable. *)
Definition Object_prototype : list string :=
  [ "constructor"; "__proto__"; "hasOwnProperty"; "isPrototypeOf";
    "propertyIsEnumerable"; "toLocaleString"; "toString"; "valueOf";
    "__defineGetter__"; "__defineSetter__";
    "__lookupGetter__"; "__lookupSetter__" ].

(** The value of [obj[key]] for an object literal [obj] whose own
    properties are arrays of [A]. *)
Inductive Property (A : Type) : Type :=
| Own (items : list A)
| Inherited (key : string)
| Undefined.
Arguments Own {A} items.
Arguments Inherited {A} key.
Arguments Undefined {A}.

Fixpoint assoc {A : Type} (key : string) (obj : list (string * A)) : option A :=
  match obj with
  | [] => None
  | (k, v) :: obj' => if (k =? key)%string then Some v else assoc key obj'
  end.

Definition get {A : Type} (obj : list (string * list A)) (key : string) : Property A :=
  match assoc key obj with
  | Some items => Own items
  | None =>
      if existsb (String.eqb key) Object_prototype then Inherited key
      else Undefined
  end.

(** [Object.values(obj).flat()] *)
Definition values_flat {A : Type} (obj : list (string * list A)) : list A :=
  flat_map snd obj.

End Js.

(* ===================================================================== *)
(** ** shared/schema.ts: the two tables *)
(* ===================================================================== *)

(** A column that is not declared [notNull] holds [None] for SQL NULL. *)

Module WatchedAsset.
Record t : Type := mk {
  id : nat;                       (* uuid primary key, gen_random_uuid() *)
  userId : option string;
  symbol : string;                (* notNull *)
  name : option string;
  exchange : option string;
  assetType : option string;
  region : option string;
  isFavorite : option bool;
  alertPrice : option Q;
  alertType : option string;
  createdAt : option Z;
  updatedAt : option Z
}.

(** The unique indexes the table is declared with: the primary key. *)
Definition unique : list (list string) := [ ["id"] ].
End WatchedAsset.

Module MarketData.
Record t : Type := mk {
  id : nat;
  symbol : string;                (* notNull, unique *)
  name : option string;
  exchange : option string;
  price : Q;                      (* notNull *)
  change : option Q;
  changePercent : option Q;
  volume : option string;
  marketCap : option Q;
  previousClose : option Q;
  dayHigh : option Q;
  dayLow : option Q;
  currency : option string;
  sector : option string;
  lastUpdated : option Z;
  sparklineData : option (list Q)
}.

(** The primary key, and [.unique()] on [symbol]. *)
Definition unique : list (list string) := [ ["id"]; ["symbol"] ].
End MarketData.

(* ===================================================================== *)
(** ** The quote provider *)
(* ===================================================================== *)

Module FinnhubQuote.
Record t : Type := mk {
  c : Q;    (* current price *)
  d : Q;    (* change *)
  dp : Q;   (* percent change *)
  h : Q;    (* high of the day *)
  l : Q;    (* low of the day *)
  o : Q;    (* open of the day *)
  pc : Q;   (* previous close *)
  t_ : Z    (* timestamp *)
}.
End FinnhubQuote.

(** The fields of the profile [updateMarketData] reads. *)
Module FinnhubCompanyProfile.
Record t : Type := mk {
  currency : string;
  exchange : string;
  marketCapitalization : Q;
  name : string;
  finnhubIndustry : string
}.
End FinnhubCompanyProfile.

Inductive Endpoint : Type :=
| Quote (symbol : string)       (* /quote?symbol=... *)
| Profile2 (symbol : string).   (* /stock/profile2?symbol=... *)

Definition endpoint_path (e : Endpoint) : string :=
  match e with
  | Quote s => "/quote?symbol=" ++ s
  | Profile2 s => "/stock/profile2?symbol=" ++ s
  end.

(** What a request comes back with. *)
Inductive Reply (A : Type) : Type :=
| NetworkFailure                                   (* fetch() rejects *)
| NotOk (status : string) (statusText : string)    (* !response.ok *)
| ErrorPayload (error : string)                    (* data.error is set *)
| Payload (data : A).
Arguments NetworkFailure {A}.
Arguments NotOk {A} status statusText.
Arguments ErrorPayload {A} error.
Arguments Payload {A} data.

Definition is_payload {A : Type} (r : Reply A) : bool :=
  match r with Payload _ => true | _ => false end.

(** The outside world as an oracle.  Requests, awaited operations and
    random draws are numbered in the order the service performs them. *)
Record Upstream : Type := {
  quote_reply : string -> nat -> Reply FinnhubQuote.t;
  profile_reply : string -> nat -> Reply FinnhubCompanyProfile.t;
  io_time : nat -> nat;      (* milliseconds the n-th awaited operation takes *)
  random : nat -> Q          (* the n-th value of Math.random() *)
}.

(* ===================================================================== *)
(** ** Worlds, errors and the [Async] monad *)
(* ===================================================================== *)

Inductive Exn : Type :=
| Error (message : string)
| TypeError (message : string)
| DatabaseError (code : string) (message : string).

Inductive LogLine : Type :=
| FailedToFetch (e : Endpoint)                  (* Failed to fetch from Finnhub: ... *)
| FailedToUpdate (symbol : string)              (* Failed to update market data for ... *)
| FailedToInitialize (symbol : string) (exchange : option string)
| CouldNotFetch (symbol : string).              (* console.warn, ... adding anyway *)

Inductive Event : Type :=
| HttpGet (e : Endpoint)
| SetTimeout (ms : Z)
| Console (line : LogLine).

Record World : Type := mkWorld {
  clock : Z;                                 (* milliseconds since the epoch *)
  market_data : list MarketData.t;           (* rows in storage order *)
  watched_assets : list WatchedAsset.t;
  awaited : nat;                             (* awaited operations so far *)
  drawn : nat;                               (* Math.random() calls so far *)
  next_id : nat;                             (* ids handed out so far *)
  trace : list Event                         (* oldest first *)
}.

Inductive Outcome (A : Type) : Type :=
| Return (a : A)
| Throw (e : Exn).
Arguments Return {A} a.
Arguments Throw {A} e.

Definition Async (A : Type) : Type := World -> Outcome A * World.

Definition ret {A : Type} (a : A) : Async A := fun w => (Return a, w).

Definition throw {A : Type} (e : Exn) : Async A := fun w => (Throw e, w).

Definition bind {A B : Type} (m : Async A) (k : A -> Async B) : Async B :=
  fun w =>
    match m w with
    | (Return a, w') => k a w'
    | (Throw e, w') => (Throw e, w')
    end.

Declare Scope async_scope.
Delimit Scope async_scope with async.
Notation "x <- m ;; k" := (bind m (fun x => k))
  (at level 61, m at next level, right associativity) : async_scope.
Notation "m ;; k" := (bind m (fun _ => k))
  (at level 61, right associativity) : async_scope.
Local Open Scope async_scope.

(** [try { m } catch (error) { handler error }] *)
Definition try_catch {A : Type} (m : Async A) (handler : Exn -> Async A) : Async A :=
  fun w =>
    match m w with
    | (Return a, w') => (Return a, w')
    | (Throw e, w') => handler e w'
    end.

(** [for (const x of l) { body x }] *)
Fixpoint for_of {A : Type} (l : list A) (body : A -> Async unit) : Async unit :=
  match l with
  | [] => ret tt
  | x :: l' => body x ;; for_of l' body
  end.

Definition exec {A : Type} (m : Async A) (w : World) : World := snd (m w).
Definition outcome {A : Type} (m : Async A) (w : World) : Outcome A := fst (m w).

Definition set_clock (t : Z) (w : World) : World :=
  mkWorld t (market_data w) (watched_assets w) (awaited w) (drawn w) (next_id w) (trace w).
Definition set_market_data (rows : list MarketData.t) (w : World) : World :=
  mkWorld (clock w) rows (watched_assets w) (awaited w) (drawn w) (next_id w) (trace w).
Definition set_watched_assets (rows : list WatchedAsset.t) (w : World) : World :=
  mkWorld (clock w) (market_data w) rows (awaited w) (drawn w) (next_id w) (trace w).
Definition set_awaited (n : nat) (w : World) : World :=
  mkWorld (clock w) (market_data w) (watched_assets w) n (drawn w) (next_id w) (trace w).
Definition set_drawn (n : nat) (w : World) : World :=
  mkWorld (clock w) (market_data w) (watched_assets w) (awaited w) n (next_id w) (trace w).
Definition set_next_id (n : nat) (w : World) : World :=
  mkWorld (clock w) (market_data w) (watched_assets w) (awaited w) (drawn w) n (trace w).
Definition set_trace (tr : list Event) (w : World) : World :=
  mkWorld (clock w) (market_data w) (watched_assets w) (awaited w) (drawn w) (next_id w) tr.

(** The empty database at time [t0]. *)
Definition boot (t0 : Z) : World := mkWorld t0 [] [] 0 0 0 [].

(* ===================================================================== *)
(** ** The database primitives the service uses *)
(* ===================================================================== *)

Module Pg.

Definition mem (c : string) (cols : list string) : bool :=
  existsb (String.eqb c) cols.

Definition same_columns (a b : list string) : bool :=
  forallb (fun c => mem c b) a && forallb (fun c => mem c a) b.

(** [ON CONFLICT (target)] needs a unique index on exactly the target
    columns to arbitrate; PostgreSQL rejects the statement (SQLSTATE
    42P10) when the table has none. *)
Definition arbiter (unique : list (list string)) (target : list string) : bool :=
  existsb (same_columns target) unique.

Definition no_arbiter : Exn :=
  DatabaseError "42P10"
    "there is no unique or exclusion constraint matching the ON CONFLICT specification".

(** [INSERT ... ON CONFLICT (target) DO UPDATE SET ...] once an arbiter
    index is found: a row that conflicts with the proposed one is updated
    where it is, otherwise the proposed row is appended. *)
Definition upsert {R : Type} (conflicts : R -> bool) (set : R -> R)
    (row : R) (rows : list R) : list R :=
  if existsb conflicts rows
  then map (fun r => if conflicts r then set r else r) rows
  else rows ++ [row].

(** [UPDATE ... SET ... WHERE ...] *)
Definition update {R : Type} (where_ : R -> bool) (set : R -> R)
    (rows : list R) : list R :=
  map (fun r => if where_ r then set r else r) rows.

(** [DELETE FROM ... WHERE ...] *)
Definition delete {R : Type} (where_ : R -> bool) (rows : list R) : list R :=
  filter (fun r => negb (where_ r)) rows.

(** [ORDER BY]: a stable insertion sort by a "comes no later than" test. *)
Fixpoint insert_by {R : Type} (le : R -> R -> bool) (x : R) (l : list R) : list R :=
  match l with
  | [] => [x]
  | y :: l' => if le x y then x :: l else y :: insert_by le x l'
  end.

Definition order_by {R : Type} (le : R -> R -> bool) (l : list R) : list R :=
  fold_right (insert_by le) [] l.

(** [a LEFT JOIN b ON on a b] *)
Definition left_join {A B : Type} (on : A -> B -> bool)
    (a : list A) (b : list B) : list (A * option B) :=
  flat_map (fun x =>
              match filter (on x) b with
              | [] => [(x, None)]
              | ys => map (fun y => (x, Some y)) ys
              end) a.

(** [DESC] puts NULL first, [ASC] puts it last. *)
Definition desc_Z (a b : option Z) : bool :=
  match a, b with
  | None, _ => true
  | Some _, None => false
  | Some x, Some y => y <=? x
  end.

Definition asc_Z (a b : option Z) : bool :=
  match a, b with
  | _, None => true
  | None, Some _ => false
  | Some x, Some y => x <=? y
  end.

Definition desc_bool (a b : option bool) : bool :=
  match a, b with
  | None, _ => true
  | Some _, None => false
  | Some x, Some y => implb y x
  end.

(** [ORDER BY k1, k2]: [k2] decides among rows that tie on [k1]. *)
Definition lexicographic {R : Type} (le1 le2 : R -> R -> bool) (a b : R) : bool :=
  if le1 a b then (if le1 b a then le2 a b else true) else false.

End Pg.

(* ===================================================================== *)
(** ** server/market-service.ts *)
(* ===================================================================== *)

Module Stock.
Record t : Type := mk { symbol : string; name : string; sector : string }.
End Stock.

Definition EXCHANGE_STOCKS : list (string * list Stock.t) :=
  [ ("OL",
     [ Stock.mk "EQNR.OL" "Equinor ASA" "Energy";
       Stock.mk "DNB.OL" "DNB Bank ASA" "Financial Services";
       Stock.mk "TEL.OL" "Telenor ASA" "Telecommunications";
       Stock.mk "MOWI.OL" "Mowi ASA" "Food & Beverages";
       Stock.mk "NHY.OL" "Norsk Hydro ASA" "Basic Materials";
       Stock.mk "YAR.OL" "Yara International ASA" "Basic Materials";
       Stock.mk "ORKLA.OL" "Orkla ASA" "Consumer Goods";
       Stock.mk "STL.OL" "Statoil ASA" "Energy" ]);
    ("US",
     [ Stock.mk "AAPL" "Apple Inc." "Technology";
       Stock.mk "MSFT" "Microsoft Corporation" "Technology";
       Stock.mk "GOOGL" "Alphabet Inc." "Technology";
       Stock.mk "AMZN" "Amazon.com Inc." "Consumer Discretionary";
       Stock.mk "TSLA" "Tesla Inc." "Consumer Discretionary";
       Stock.mk "META" "Meta Platforms Inc." "Technology";
       Stock.mk "JPM" "JPMorgan Chase & Co." "Financial Services";
       Stock.mk "JNJ" "Johnson & Johnson" "Healthcare" ]);
    ("L",
     [ Stock.mk "SHEL.L" "Shell plc" "Energy";
       Stock.mk "AZN.L" "AstraZeneca PLC" "Healthcare";
       Stock.mk "ULVR.L" "Unilever PLC" "Consumer Goods";
       Stock.mk "LSEG.L" "London Stock Exchange Group" "Financial Services";
       Stock.mk "RIO.L" "Rio Tinto Group" "Basic Materials";
       Stock.mk "BP.L" "BP p.l.c." "Energy" ]);
    ("DE",
     [ Stock.mk "SAP.DE" "SAP SE" "Technology";
       Stock.mk "ASME.DE" "ASML Holding N.V." "Technology";
       Stock.mk "SIE.DE" "Siemens AG" "Industrials";
       Stock.mk "ALV.DE" "Allianz SE" "Financial Services";
       Stock.mk "DTE.DE" "Deutsche Telekom AG" "Telecommunications";
       Stock.mk "BAS.DE" "BASF SE" "Basic Materials" ]);
    ("HK",
     [ Stock.mk "0700.HK" "Tencent Holdings Ltd." "Technology";
       Stock.mk "9988.HK" "Alibaba Group Holding Ltd." "Technology";
       Stock.mk "0005.HK" "HSBC Holdings plc" "Financial Services";
       Stock.mk "1299.HK" "AIA Group Ltd." "Financial Services";
       Stock.mk "2318.HK" "Ping An Insurance" "Financial Services";
       Stock.mk "3690.HK" "Meituan" "Consumer Discretionary" ]);
    ("T",
     [ Stock.mk "7203.T" "Toyota Motor Corp" "Consumer Discretionary";
       Stock.mk "6758.T" "Sony Group Corp" "Technology";
       Stock.mk "9984.T" "SoftBank Group Corp" "Technology";
       Stock.mk "8306.T" "Mitsubishi UFJ Financial Group" "Financial Services";
       Stock.mk "6861.T" "Keyence Corp" "Technology";
       Stock.mk "4063.T" "Shin-Etsu Chemical Co" "Basic Materials" ]);
    ("ST",
     [ Stock.mk "VOLV-B.ST" "Volvo AB" "Industrials";
       Stock.mk "ERICB.ST" "Telefonaktiebolaget LM Ericsson" "Technology";
       Stock.mk "ATLAS-B.ST" "Atlas Copco AB" "Industrials";
       Stock.mk "HEXA-B.ST" "Hexagon AB" "Technology";
       Stock.mk "SSAB-A.ST" "SSAB AB" "Basic Materials";
       Stock.mk "SKF-B.ST" "SKF AB" "Industrials" ]) ].

(** [EXCHANGE_STOCKS["OL"]] *)
Definition NORWEGIAN_STOCKS : list Stock.t :=
  match Js.get EXCHANGE_STOCKS "OL" with
  | Js.Own stocks => stocks
  | _ => []
  end.

(** The optional [extraData] argument of [addWatchedAsset]. *)
Module ExtraData.
Record t : Type := mk {
  exchange : option string;
  name : option string;
  assetType : option string;
  region : option string
}.
End ExtraData.

(** [!v] for a nullable boolean: NULL is falsy. *)
Definition js_not (v : option bool) : bool :=
  match v with
  | Some true => false
  | _ => true
  end.

(** [new Date(v).getTime()] for a nullable timestamp: [new Date(null)] is
    the epoch. *)
Definition getTime (v : option Z) : Z :=
  match v with
  | Some t => t
  | None => 0
  end.

Definition opt_string_eqb (a : option string) (b : string) : bool :=
  match a with
  | Some s => (s =? b)%string
  | None => false
  end.

(** [eq(watchedAssets.userId, userId) and eq(watchedAssets.symbol, symbol)] *)
Definition watch_key (userId symbol : string) (r : WatchedAsset.t) : bool :=
  opt_string_eqb (WatchedAsset.userId r) userId &&
  (WatchedAsset.symbol r =? symbol)%string.

Definition symbol_is (symbol : string) (r : MarketData.t) : bool :=
  (MarketData.symbol r =? symbol)%string.

(** [desc(marketData.lastUpdated)] *)
Definition by_lastUpdated_desc (a b : MarketData.t) : bool :=
  Pg.desc_Z (MarketData.lastUpdated a) (MarketData.lastUpdated b).

(** [desc(watchedAssets.isFavorite), watchedAssets.createdAt] *)
Definition by_favorite_then_created
    (a b : WatchedAsset.t * option MarketData.t) : bool :=
  Pg.lexicographic
    (fun x y => Pg.desc_bool (WatchedAsset.isFavorite (fst x)) (WatchedAsset.isFavorite (fst y)))
    (fun x y => Pg.asc_Z (WatchedAsset.createdAt (fst x)) (WatchedAsset.createdAt (fst y)))
    a b.

(** The [set] clause of the upsert in [updateMarketData]. *)
Definition set_quote (quote : FinnhubQuote.t) (sparklineData : list Q)
    (lastUpdated : Z) (r : MarketData.t) : MarketData.t :=
  MarketData.mk
    (MarketData.id r) (MarketData.symbol r) (MarketData.name r) (MarketData.exchange r)
    (FinnhubQuote.c quote)
    (Some (FinnhubQuote.d quote))
    (Some (FinnhubQuote.dp quote))
    (MarketData.volume r) (MarketData.marketCap r)
    (Some (FinnhubQuote.pc quote))
    (Some (FinnhubQuote.h quote))
    (Some (FinnhubQuote.l quote))
    (MarketData.currency r) (MarketData.sector r)
    (Some lastUpdated)
    (Some sparklineData).

(** The [values] of the upsert in [updateMarketData]; [id] and
    [lastUpdated] take their column defaults. *)
Definition quote_row (symbol : string) (quote : FinnhubQuote.t)
    (profile : option FinnhubCompanyProfile.t) (stockInfo : option Stock.t)
    (sparklineData : list Q) (id : nat) (now : Z) : MarketData.t :=
  MarketData.mk
    id symbol
    (Some (Js.or_else (Js.or (option_map FinnhubCompanyProfile.name profile)
                             (option_map Stock.name stockInfo)) symbol))
    (Some (Js.or_else (Js.or (option_map FinnhubCompanyProfile.exchange profile)
                             (nth_error (Js.split "." symbol) 1)) "US"))
    (FinnhubQuote.c quote)
    (Some (FinnhubQuote.d quote))
    (Some (FinnhubQuote.dp quote))
    (Some "N/A")
    (match profile with
     | Some p =>
         if Qeq_bool (FinnhubCompanyProfile.marketCapitalization p) 0 then None
         else Some (FinnhubCompanyProfile.marketCapitalization p * 1000000)%Q
     | None => None
     end)
    (Some (FinnhubQuote.pc quote))
    (Some (FinnhubQuote.h quote))
    (Some (FinnhubQuote.l quote))
    (Some (Js.or_else (option_map FinnhubCompanyProfile.currency profile)
                      (if Js.includes symbol ".OL" then "NOK" else "USD")))
    (Some (Js.or_else (Js.or (option_map Stock.sector stockInfo)
                             (option_map FinnhubCompanyProfile.finnhubIndustry profile))
                      "Unknown"))
    (Some now)
    (Some sparklineData).

(** The [values] of the upsert in [addWatchedAsset]. *)
Definition watch_row (userId symbol : string) (isFavorite : bool)
    (extraData : option ExtraData.t) (id : nat) (now : Z) : WatchedAsset.t :=
  WatchedAsset.mk
    id (Some userId) symbol
    (match extraData with Some x => ExtraData.name x | None => None end)
    (match extraData with Some x => ExtraData.exchange x | None => None end)
    (Some (Js.or_else (match extraData with Some x => ExtraData.assetType x | None => None end)
                      "stock"))
    (Some (Js.or_else (match extraData with Some x => ExtraData.region x | None => None end)
                      "Global"))
    (Some isFavorite)
    None None
    (Some now) (Some now).

Definition set_favorite (isFavorite : bool) (updatedAt : Z) (r : WatchedAsset.t)
    : WatchedAsset.t :=
  WatchedAsset.mk
    (WatchedAsset.id r) (WatchedAsset.userId r) (WatchedAsset.symbol r)
    (WatchedAsset.name r) (WatchedAsset.exchange r) (WatchedAsset.assetType r)
    (WatchedAsset.region r)
    (Some isFavorite)
    (WatchedAsset.alertPrice r) (WatchedAsset.alertType r)
    (WatchedAsset.createdAt r)
    (Some updatedAt).

(** One point of [generateSparklineData], for loop index [i] and random
    draw [r]. *)
Definition sparkline_point (currentPrice change : Q) (i : Z) (r : Q) : Q :=
  let basePrice := (currentPrice - change)%Q in
  let variation := ((r - (1 # 2)) * (currentPrice * (5 # 100)))%Q in
  let price := (basePrice + change * (inject_Z i / 6) + variation)%Q in
  (inject_Z (Js.Math_round (price * 100)) / 100)%Q.

Section Service.

Variable up : Upstream.

(** *** Effects *)

(** Every awaited operation takes the time the oracle says. *)
Definition await_io : Async nat :=
  fun w =>
    (Return (awaited w),
     set_awaited (S (awaited w))
       (set_clock (clock w + Z.of_nat (io_time up (awaited w))) w)).

Definition emit (e : Event) : Async unit :=
  fun w => (Return tt, set_trace (trace w ++ [e]) w).

Definition new_Date : Async Z :=
  fun w => (Return (clock w), w).

Definition Math_random : Async Q :=
  fun w => (Return (random up (drawn w)), set_drawn (S (drawn w)) w).

Definition gen_random_uuid : Async nat :=
  fun w => (Return (next_id w), set_next_id (S (next_id w)) w).

(** [await new Promise(resolve => setTimeout(resolve, ms))]: the timer
    fires after [ms] milliseconds, or later. *)
Definition setTimeout (ms : Z) : Async unit :=
  emit (SetTimeout ms) ;;
  (fun w => (Return tt, set_clock (clock w + ms) w)) ;;
  _ <- await_io ;;
  ret tt.

(** [db.select().from(marketData).where(...)], with [.limit] and
    [.orderBy] applied by [shape]. *)
Definition select_market_data (where_ : MarketData.t -> bool)
    (shape : list MarketData.t -> list MarketData.t) : Async (list MarketData.t) :=
  _ <- await_io ;;
  fun w => (Return (shape (filter where_ (market_data w))), w).

Definition select_watched_assets (where_ : WatchedAsset.t -> bool)
    (shape : list WatchedAsset.t -> list WatchedAsset.t) : Async (list WatchedAsset.t) :=
  _ <- await_io ;;
  fun w => (Return (shape (filter where_ (watched_assets w))), w).

(** [db.insert(marketData).values(...).onConflictDoUpdate({target, set})];
    [conflicts] tells the rows that agree with the proposed one on the
    target columns. *)
Definition insert_market_data (values : nat -> Z -> MarketData.t)
    (target : list string) (conflicts : MarketData.t -> bool)
    (set : MarketData.t -> MarketData.t) : Async unit :=
  _ <- await_io ;;
  if Pg.arbiter MarketData.unique target then
    id <- gen_random_uuid ;;
    now <- new_Date ;;
    fun w => (Return tt,
              set_market_data (Pg.upsert conflicts set (values id now) (market_data w)) w)
  else throw Pg.no_arbiter.

Definition insert_watched_assets (values : nat -> Z -> WatchedAsset.t)
    (target : list string) (conflicts : WatchedAsset.t -> bool)
    (set : WatchedAsset.t -> WatchedAsset.t) : Async unit :=
  _ <- await_io ;;
  if Pg.arbiter WatchedAsset.unique target then
    id <- gen_random_uuid ;;
    now <- new_Date ;;
    fun w => (Return tt,
              set_watched_assets
                (Pg.upsert conflicts set (values id now) (watched_assets w)) w)
  else throw Pg.no_arbiter.

Definition update_watched_assets (where_ : WatchedAsset.t -> bool)
    (set : WatchedAsset.t -> WatchedAsset.t) : Async unit :=
  _ <- await_io ;;
  fun w => (Return tt, set_watched_assets (Pg.update where_ set (watched_assets w)) w).

Definition delete_watched_assets (where_ : WatchedAsset.t -> bool) : Async unit :=
  _ <- await_io ;;
  fun w => (Return tt, set_watched_assets (Pg.delete where_ (watched_assets w)) w).

(** *** Promises

    Calling an [async] function runs it up to its first [await] and hands
    back a promise; awaiting the promise runs what remains. *)

Definition Promise (A : Type) : Type := Async A.

(** The outcome of a promise, taken without rethrowing. *)
Definition settled {A : Type} (p : Promise A) : Async (Outcome A) :=
  fun w => (Return (fst (p w)), snd (p w)).

Definition rethrow {A : Type} (r : Outcome A) : Async A :=
  match r with
  | Return a => ret a
  | Throw e => throw e
  end.

(** [p.catch(() => null)] *)
Definition Promise_catch_null {A : Type} (p : Promise A) : Promise (option A) :=
  try_catch (a <- p ;; ret (Some a)) (fun _ => ret None).

(** [await Promise.all([a, b])]: both promises are under way and settle;
    a rejection is thrown on. *)
Definition Promise_all {A B : Type} (a : Promise A) (b : Promise B) : Async (A * B) :=
  ra <- settled a ;;
  rb <- settled b ;;
  x <- rethrow ra ;;
  y <- rethrow rb ;;
  ret (x, y).

(** *** fetchFromFinnhub, getQuote, getCompanyProfile *)

Definition fetchFromFinnhub {A : Type} (endpoint : Endpoint)
    (reply : nat -> Reply A) : Async (Promise A) :=
  emit (HttpGet endpoint) ;;
  ret (try_catch
         (n <- await_io ;;
          match reply n with
          | NetworkFailure => throw (TypeError "fetch failed")
          | NotOk status statusText =>
              throw (Error ("Finnhub API error: " ++ status ++ " " ++ statusText))
          | ErrorPayload error => throw (Error ("Finnhub API error: " ++ error))
          | Payload data => ret data
          end)
         (fun error => emit (Console (FailedToFetch endpoint)) ;; throw error)).

Definition getQuote (symbol : string) : Async (Promise FinnhubQuote.t) :=
  fetchFromFinnhub (Quote symbol) (quote_reply up symbol).

Definition getCompanyProfile (symbol : string)
    : Async (Promise FinnhubCompanyProfile.t) :=
  fetchFromFinnhub (Profile2 symbol) (profile_reply up symbol).

(** *** generateSparklineData *)

Fixpoint sparkline_points (currentPrice change : Q) (indices : list Z) : Async (list Q) :=
  match indices with
  | [] => ret []
  | i :: rest =>
      r <- Math_random ;;
      points <- sparkline_points currentPrice change rest ;;
      ret (sparkline_point currentPrice change i r :: points)
  end.

Definition generateSparklineData (currentPrice change : Q) : Async (list Q) :=
  sparkline_points currentPrice change [0; 1; 2; 3; 4; 5; 6].

(** *** updateMarketData *)

Definition updateMarketData (symbol : string) : Async unit :=
  try_catch
    (quote_promise <- getQuote symbol ;;
     profile_promise <- getCompanyProfile symbol ;;
     both <- Promise_all quote_promise (Promise_catch_null profile_promise) ;;
     let quote := fst both in
     let profile := snd both in
     sparklineData <- generateSparklineData (FinnhubQuote.c quote) (FinnhubQuote.d quote) ;;
     let stockInfo :=
       find (fun stock => (Stock.symbol stock =? symbol)%string)
            (Js.values_flat EXCHANGE_STOCKS) in
     lastUpdated <- new_Date ;;
     insert_market_data
       (quote_row symbol quote profile stockInfo sparklineData)
       ["symbol"] (symbol_is symbol)
       (set_quote quote sparklineData lastUpdated))
    (fun error => emit (Console (FailedToUpdate symbol)) ;; throw error).

(** *** initializeNorwegianStocks *)

(** The [try]/[catch] statement inside the loop. *)
Definition initializeNorwegianStocks_body (stock : Stock.t) : Async unit :=
  try_catch
    (updateMarketData (Stock.symbol stock) ;;
     setTimeout 1100)
    (fun _ => emit (Console (FailedToInitialize (Stock.symbol stock) None))).

Definition initializeNorwegianStocks : Async unit :=
  for_of NORWEGIAN_STOCKS initializeNorwegianStocks_body.

(** *** getMarketDataFromDB *)

Definition getMarketDataFromDB (symbols : option (list string))
    : Async (list MarketData.t) :=
  match symbols with
  | Some (s :: rest) =>
      select_market_data
        (fun r => Pg.mem (MarketData.symbol r) (s :: rest))
        (fun rows => rows)
  | _ =>
      select_market_data (fun _ => true) (Pg.order_by by_lastUpdated_desc)
  end.

(** *** initializeExchangeData *)

(** What the loop does for one stock, inside its [try]. *)
Definition refresh_if_stale (stock : Stock.t) : Async unit :=
  existingData <- select_market_data (symbol_is (Stock.symbol stock)) (firstn 1) ;;
  now <- new_Date ;;
  let shouldUpdate :=
    match existingData with
    | [] => true
    | existing :: _ => 5 * 60 * 1000 <? now - getTime (MarketData.lastUpdated existing)
    end in
  if shouldUpdate then
    updateMarketData (Stock.symbol stock) ;;
    setTimeout 1100
  else ret tt.

(** The [try]/[catch] statement inside the loop. *)
Definition initializeExchangeData_body (exchange : string) (stock : Stock.t)
    : Async unit :=
  try_catch
    (refresh_if_stale stock)
    (fun _ => emit (Console (FailedToInitialize (Stock.symbol stock) (Some exchange)))).

Definition initializeExchangeData (exchange : string) : Async unit :=
  match Js.get EXCHANGE_STOCKS exchange with
  | Js.Undefined => ret tt
  | Js.Inherited _ => throw (TypeError "exchangeStocks is not iterable")
  | Js.Own exchangeStocks =>
      for_of exchangeStocks (initializeExchangeData_body exchange)
  end.

(** *** getMarketDataByExchange *)

Definition getMarketDataByExchange (exchange : string) : Async (list MarketData.t) :=
  match Js.get EXCHANGE_STOCKS exchange with
  | Js.Undefined => throw (Error ("Unsupported exchange: " ++ exchange))
  | exchangeStocks =>
      initializeExchangeData exchange ;;
      match exchangeStocks with
      | Js.Own stocks => getMarketDataFromDB (Some (map Stock.symbol stocks))
      | _ => throw (TypeError "exchangeStocks.map is not a function")
      end
  end.

(** *** getUserWatchedAssets *)

Definition getUserWatchedAssets (userId : string)
    : Async (list (WatchedAsset.t * option MarketData.t)) :=
  _ <- await_io ;;
  fun w =>
    (Return
       (Pg.order_by by_favorite_then_created
          (filter (fun row => opt_string_eqb (WatchedAsset.userId (fst row)) userId)
             (Pg.left_join
                (fun a m => (WatchedAsset.symbol a =? MarketData.symbol m)%string)
                (watched_assets w) (market_data w)))),
     w).

(** *** addWatchedAsset *)

Definition addWatchedAsset (userId symbol : string) (isFavorite : bool)
    (extraData : option ExtraData.t) : Async unit :=
  try_catch
    (updateMarketData symbol)
    (fun _ => emit (Console (CouldNotFetch symbol))) ;;
  updatedAt <- new_Date ;;
  insert_watched_assets
    (watch_row userId symbol isFavorite extraData)
    ["user_id"; "symbol"] (watch_key userId symbol)
    (set_favorite isFavorite updatedAt).

(** *** toggleFavorite *)

Definition toggleFavorite (userId symbol : string) : Async unit :=
  existing <- select_watched_assets (watch_key userId symbol) (firstn 1) ;;
  match existing with
  | [] => addWatchedAsset userId symbol true None
  | first :: _ =>
      updatedAt <- new_Date ;;
      update_watched_assets (watch_key userId symbol)
        (set_favorite (js_not (WatchedAsset.isFavorite first)) updatedAt)
  end.

(** *** removeWatchedAsset *)

Definition removeWatchedAsset (userId symbol : string) : Async unit :=
  delete_watched_assets (watch_key userId symbol).

End Service.

(* ===================================================================== *)
(** ** Observations on worlds and traces *)
(* ===================================================================== *)

(** The symbols whose quote was requested, in the order of the requests. *)
Definition quote_requests (tr : list Event) : list string :=
  flat_map (fun e => match e with HttpGet (Quote s) => [s] | _ => [] end) tr.

(** How many quote requests went out for [symbol]. *)
Definition quote_calls (symbol : string) (w : World) : nat :=
  List.length (filter (String.eqb symbol) (quote_requests (trace w))).

(** The delays the service waited for, in order. *)
Definition timeouts (tr : list Event) : list Z :=
  flat_map (fun e => match e with SetTimeout ms => [ms] | _ => [] end) tr.

(** The cached row of a symbol, as [.limit(1)] returns it. *)
Definition cached (symbol : string) (w : World) : option MarketData.t :=
  hd_error (filter (symbol_is symbol) (market_data w)).

(** The catalog entry [updateMarketData] looks up. *)
Definition stockInfo_of (symbol : string) : option Stock.t :=
  find (fun stock => (Stock.symbol stock =? symbol)%string)
       (Js.values_flat EXCHANGE_STOCKS).

Definition value_or {A : Type} (default : A) (r : Outcome A) : A :=
  match r with
  | Return a => a
  | Throw _ => default
  end.

(** The columns an upsert of [quote] leaves in the row of the symbol. *)
Definition holds_quote (quote : FinnhubQuote.t) (sparklineData : list Q)
    (from to : Z) (r : MarketData.t) : Prop :=
  MarketData.price r = FinnhubQuote.c quote /\
  MarketData.change r = Some (FinnhubQuote.d quote) /\
  MarketData.changePercent r = Some (FinnhubQuote.dp quote) /\
  MarketData.previousClose r = Some (FinnhubQuote.pc quote) /\
  MarketData.dayHigh r = Some (FinnhubQuote.h quote) /\
  MarketData.dayLow r = Some (FinnhubQuote.l quote) /\
  MarketData.sparklineData r = Some sparklineData /\
  exists t, MarketData.lastUpdated r = Some t /\ from <= t <= to.

(** The descriptive columns of a cached row. *)
Definition metadata (r : MarketData.t)
    : string * option string * option string * option string :=
  (MarketData.symbol r, MarketData.name r, MarketData.sector r, MarketData.currency r).

(** What [shouldUpdate] evaluates to when the loop of
    [initializeExchangeData] reaches [symbol] in world [w]: the row is
    read, which takes its time, and its age is taken then. *)
Definition shouldUpdate_at (up : Upstream) (symbol : string) (w : World) : bool :=
  match cached symbol w with
  | None => true
  | Some existing =>
      5 * 60 * 1000 <?
        clock w + Z.of_nat (io_time up (awaited w))
        - getTime (MarketData.lastUpdated existing)
  end.

(** Since time [t0] the quote of [symbol] has been requested at most once
    more than the [calls0] times before, and if it has, the row it left is
    cached with a last-updated time not before [t0]. *)
Definition requested_at_most_once (symbol : string) (t0 : Z) (calls0 : nat)
    (w : World) : Prop :=
  quote_calls symbol w = calls0 \/
  (quote_calls symbol w = S calls0 /\
   exists r t,
     cached symbol w = Some r /\ MarketData.lastUpdated r = Some t /\ t0 <= t).

(** The methods of the service, as the routes call them. *)
Inductive Call : Type :=
| UpdateMarketData (symbol : string)
| InitializeNorwegianStocks
| GetMarketDataFromDB (symbols : option (list string))
| GetMarketDataByExchange (exchange : string)
| InitializeExchangeData (exchange : string)
| GetUserWatchedAssets (userId : string)
| AddWatchedAsset (userId symbol : string) (isFavorite : bool)
    (extraData : option ExtraData.t)
| ToggleFavorite (userId symbol : string)
| RemoveWatchedAsset (userId symbol : string).

(** The world after a call, whether it returned or threw. *)
Definition perform (up : Upstream) (c : Call) (w : World) : World :=
  match c with
  | UpdateMarketData symbol => exec (updateMarketData up symbol) w
  | InitializeNorwegianStocks => exec (initializeNorwegianStocks up) w
  | GetMarketDataFromDB symbols => exec (getMarketDataFromDB up symbols) w
  | GetMarketDataByExchange exchange => exec (getMarketDataByExchange up exchange) w
  | InitializeExchangeData exchange => exec (initializeExchangeData up exchange) w
  | GetUserWatchedAssets userId => exec (getUserWatchedAssets up userId) w
  | AddWatchedAsset userId symbol isFavorite extraData =>
      exec (addWatchedAsset up userId symbol isFavorite extraData) w
  | ToggleFavorite userId symbol => exec (toggleFavorite up userId symbol) w
  | RemoveWatchedAsset userId symbol => exec (removeWatchedAsset up userId symbol) w
  end.

(** The world after a sequence of calls on a database that started empty
    at time [t0]. *)
Definition after_calls (up : Upstream) (t0 : Z) (calls : list Call) : World :=
  fold_left (fun w c => perform up c w) calls (boot t0).

(** Nobody watches anything. *)
Definition nothing_watched (w : World) : Prop := watched_assets w = [].

(** No two cached rows carry the same symbol. *)
Definition unique_symbols (w : World) : Prop :=
  NoDup (map MarketData.symbol (market_data w)).

(** [m] keeps [P] true, whether it returns or throws. *)
Definition preserves {A : Type} (P : World -> Prop) (m : Async A) : Prop :=
  forall w, P w -> P (exec m w).

(** [m] cannot throw. *)
Definition total {A : Type} (m : Async A) : Prop :=
  forall w, exists a, outcome m w = Return a.

(** *** Upstreams used in the examples *)

Definition sample_quote : FinnhubQuote.t :=
  FinnhubQuote.mk 100 2 2 101 98 99 98 0.

Definition sample_profile : FinnhubCompanyProfile.t :=
  FinnhubCompanyProfile.mk "EUR" "XETRA" 150000 "SAP SE (profile)" "Software".

(** Quotes are served, profiles are not. *)
Definition quotes_only : Upstream :=
  Build_Upstream (fun _ _ => Payload sample_quote)
                 (fun _ _ => NotOk "403" "Forbidden")
                 (fun _ => 0%nat) (fun _ => 1 # 2).

(** Every request is turned down. *)
Definition rate_limited : Upstream :=
  Build_Upstream (fun _ _ => NotOk "429" "Too Many Requests")
                 (fun _ _ => NotOk "429" "Too Many Requests")
                 (fun _ => 0%nat) (fun _ => 1 # 2).

(** The profile is served for the first refresh only. *)
Definition profile_once : Upstream :=
  Build_Upstream (fun _ _ => Payload sample_quote)
                 (fun _ n => if (n <? 2)%nat then Payload sample_profile
                             else NotOk "403" "Forbidden")
                 (fun _ => 0%nat) (fun _ => 1 # 2).

(* ===================================================================== *)
(** ** server/routes.ts: the market data routes that take no user *)
(* ===================================================================== *)

Module Route.

Inductive Body : Type :=
| Rows (rows : list MarketData.t)          (* res.json(marketData) *)
| Row (row : MarketData.t)                 (* res.json(data[0]) *)
| Message (message : string).              (* res.json({ message }) *)

Record Response : Type := mk { status : Z; body : Body }.

(** What a handler has done when it is through: its response, and the
    line it wrote with [console.error], if any. *)
Record Handled : Type := handled {
  response : Response;
  logged : option (string * Exn)
}.

(** [res.json(body)] *)
Definition json (body : Body) : Handled := handled (mk 200 body) None.

(** [res.status(404).json({ message })] *)
Definition not_found (message : string) : Handled :=
  handled (mk 404 (Message message)) None.

(** [console.error(label, error); res.status(500).json({ message })] *)
Definition failed (label : string) (error : Exn) (message : string) : Handled :=
  handled (mk 500 (Message message)) (Some (label, error)).

End Route.

Section Routes.

Variable up : Upstream.

(** [GET /api/market/overview] *)
Definition market_overview : Async Route.Handled :=
  try_catch
    (marketData <- getMarketDataFromDB up None ;;
     ret (Route.json (Route.Rows (firstn 20 marketData))))
    (fun error =>
       ret (Route.failed "Error fetching market overview:" error
              "Failed to fetch market data")).

(** [GET /api/market/live/:exchange] *)
Definition market_live (exchange : string) : Async Route.Handled :=
  try_catch
    (marketData <- getMarketDataByExchange up exchange ;;
     ret (Route.json (Route.Rows marketData)))
    (fun error =>
       ret (Route.failed "Error fetching live market data:" error
              "Failed to fetch live market data")).

(** [GET /api/market/quote/:symbol] *)
Definition market_quote (symbol : string) : Async Route.Handled :=
  try_catch
    (updateMarketData up symbol ;;
     data <- getMarketDataFromDB up (Some [symbol]) ;;
     match data with
     | [] => ret (Route.not_found "Stock not found")
     | first :: _ => ret (Route.json (Route.Row first))
     end)
    (fun error =>
       ret (Route.failed "Error fetching quote:" error "Failed to fetch quote")).

End Routes.

(* ===================================================================== *)
(** ** Further observations *)
(* ===================================================================== *)

(** [m] leaves the cache alone and does not turn the clock back. *)
Definition quiet {A : Type} (m : Async A) : Prop :=
  forall w, market_data (exec m w) = market_data w /\ clock w <= clock (exec m w).

(** The string has no dot in it. *)
Fixpoint dot_free (s : string) : bool :=
  match s with
  | EmptyString => true
  | String a s' => negb (Ascii.eqb a ".") && dot_free s'
  end.

(** What every row the service writes looks like at time [now]: the
    descriptive columns and the quote columns are set, the volume is the
    placeholder, the sparkline has its seven points, and last-updated is
    set and not in the future. *)
Definition written_by_service (now : Z) (r : MarketData.t) : Prop :=
  MarketData.name r <> None /\
  MarketData.exchange r <> None /\
  MarketData.currency r <> None /\
  MarketData.sector r <> None /\
  MarketData.volume r = Some "N/A"%string /\
  MarketData.change r <> None /\
  MarketData.changePercent r <> None /\
  MarketData.previousClose r <> None /\
  MarketData.dayHigh r <> None /\
  MarketData.dayLow r <> None /\
  (exists points, MarketData.sparklineData r = Some points /\ List.length points = 7%nat) /\
  (exists t, MarketData.lastUpdated r = Some t /\ t <= now).

(** The straight line from the previous price to the current one that
    [generateSparklineData] scatters its points around. *)
Definition sparkline_trend (currentPrice change : Q) (i : Z) : Q :=
  ((currentPrice - change) + change * (inject_Z i / 6))%Q.

(** The cached row of [symbol] was last updated at [since] or later. *)
Definition updated_since (since : Z) (symbol : string) (w : World) : Prop :=
  exists r, cached symbol w = Some r /\ since <= getTime (MarketData.lastUpdated r).

(** A watch list with one record, which the service itself cannot
    produce, for the examples. *)
Definition sample_watch : WatchedAsset.t :=
  WatchedAsset.mk 0 (Some "dev-user") "EQNR.OL" None None (Some "stock") (Some "NO")
    (Some false) None None (Some 0) (Some 0).

Definition sample_watch_world : World :=
  mkWorld 1000 [] [sample_watch] 0 0 1 [].

(* ===================================================================== *)
(** ** Facts about the primitives *)
(* ===================================================================== *)

Local Open Scope list_scope.

Section OrderBy.

Context {R : Type} (le : R -> R -> bool).

Lemma insert_by_perm (x : R) (l : list R) :
  Permutation (x :: l) (Pg.insert_by le x l).
Proof.
  induction l as [|y l IH]; simpl.
  - apply Permutation_refl.
  - destruct (le x y).
    + apply Permutation_refl.
    + apply perm_trans with (y :: x :: l).
      * apply perm_swap.
      * apply perm_skip, IH.
Qed.

Lemma order_by_perm (l : list R) : Permutation l (Pg.order_by le l).
Proof.
  induction l as [|x l IH]; simpl.
  - apply perm_nil.
  - apply perm_trans with (x :: Pg.order_by le l).
    + apply perm_skip, IH.
    + apply insert_by_perm.
Qed.

Lemma order_by_In (x : R) (l : list R) : In x (Pg.order_by le l) <-> In x l.
Proof.
  split; apply Permutation_in.
  - apply Permutation_sym, order_by_perm.
  - apply order_by_perm.
Qed.

Hypothesis le_total : forall a b, le a b = false -> le b a = true.
Hypothesis le_trans : forall a b c, le a b = true -> le b c = true -> le a c = true.

Let before (a b : R) : Prop := le a b = true.

Lemma insert_by_sorted (x : R) (l : list R) :
  StronglySorted before l -> StronglySorted before (Pg.insert_by le x l).
Proof.
  induction 1 as [|y l Hl IH Hy]; simpl.
  - constructor; constructor.
  - destruct (le x y) eqn:Hxy.
    + constructor.
      * constructor; assumption.
      * constructor; [exact Hxy|].
        rewrite Forall_forall in *. intros z Hz.
        apply le_trans with y; [exact Hxy | apply Hy, Hz].
    + constructor; [exact IH|].
      rewrite Forall_forall in *. intros z Hz.
      apply (Permutation_in _ (Permutation_sym (insert_by_perm x l))) in Hz.
      destruct Hz as [<-|Hz].
      * apply le_total, Hxy.
      * apply Hy, Hz.
Qed.

Lemma order_by_sorted (l : list R) : StronglySorted before (Pg.order_by le l).
Proof.
  induction l as [|x l IH]; simpl.
  - constructor.
  - apply insert_by_sorted, IH.
Qed.

End OrderBy.

Lemma desc_Z_total (a b : option Z) : Pg.desc_Z a b = false -> Pg.desc_Z b a = true.
Proof.
  destruct a as [x|], b as [y|]; simpl; try congruence.
  intros H. apply Z.leb_gt in H. apply Z.leb_le. lia.
Qed.

Lemma desc_Z_trans (a b c : option Z) :
  Pg.desc_Z a b = true -> Pg.desc_Z b c = true -> Pg.desc_Z a c = true.
Proof.
  destruct a as [x|], b as [y|], c as [z|]; simpl; try congruence.
  rewrite !Z.leb_le. lia.
Qed.

(** An upsert keeps a key column free of duplicates, when the conflict test
    is equality on that column and the [set] clause leaves it alone. *)
Section Upsert.

Context {R : Type} (key : R -> string).

Let conflicts (k : string) (r : R) : bool := (key r =? k)%string.

Lemma upsert_keys_of_conflict (k : string) (set : R -> R) (row : R) (rows : list R) :
  (forall r, key (set r) = key r) ->
  existsb (conflicts k) rows = true ->
  map key (Pg.upsert (conflicts k) set row rows) = map key rows.
Proof.
  intros Hset Hex. unfold Pg.upsert. rewrite Hex.
  rewrite map_map. apply map_ext. intros r.
  destruct (conflicts k r); [apply Hset | reflexivity].
Qed.

Lemma upsert_keys_of_insert (k : string) (set : R -> R) (row : R) (rows : list R) :
  existsb (conflicts k) rows = false ->
  Pg.upsert (conflicts k) set row rows = rows ++ [row].
Proof. intros Hex. unfold Pg.upsert. rewrite Hex. reflexivity. Qed.

Lemma no_conflict_not_in (k : string) (rows : list R) :
  existsb (conflicts k) rows = false -> ~ In k (map key rows).
Proof.
  intros Hex Hin. apply in_map_iff in Hin. destruct Hin as [r [Hk Hr]].
  assert (existsb (conflicts k) rows = true) as E.
  { apply existsb_exists. exists r. split; [exact Hr|].
    unfold conflicts. apply String.eqb_eq, Hk. }
  congruence.
Qed.

Lemma upsert_NoDup (k : string) (set : R -> R) (row : R) (rows : list R) :
  (forall r, key (set r) = key r) ->
  key row = k ->
  NoDup (map key rows) ->
  NoDup (map key (Pg.upsert (conflicts k) set row rows)).
Proof.
  intros Hset Hrow Hnd.
  destruct (existsb (conflicts k) rows) eqn:Hex.
  - rewrite upsert_keys_of_conflict; assumption.
  - rewrite upsert_keys_of_insert by assumption.
    rewrite map_app. simpl. rewrite Hrow.
    apply NoDup_app; [exact Hnd | repeat constructor; simpl; tauto |].
    intros x Hx [<-|[]]. revert Hx. apply no_conflict_not_in, Hex.
Qed.

(** With a duplicate-free key column, the key of the upserted row is held
    by exactly one row afterwards. *)
Lemma filter_key_length (k : string) (rows : list R) :
  NoDup (map key rows) ->
  In k (map key rows) ->
  List.length (filter (conflicts k) rows) = 1%nat.
Proof.
  induction rows as [|r rows IH]; simpl; intros Hnd Hin; [tauto|].
  inversion Hnd as [|? ? Hnot Hnd']; subst.
  unfold conflicts at 1. destruct (String.eqb_spec (key r) k) as [E|E].
  - subst k. simpl. f_equal.
    assert (filter (conflicts (key r)) rows = []) as ->; [|reflexivity].
    apply List.length_zero_iff_nil.
    destruct (filter (conflicts (key r)) rows) as [|r' l] eqn:F; [reflexivity|].
    exfalso. apply Hnot.
    assert (In r' (filter (conflicts (key r)) rows)) as Hr' by (rewrite F; left; reflexivity).
    apply filter_In in Hr'. destruct Hr' as [Hr' Hc].
    unfold conflicts in Hc. apply String.eqb_eq in Hc. rewrite <- Hc.
    apply in_map, Hr'.
  - apply IH; [exact Hnd'|]. destruct Hin as [Hin|Hin]; [contradiction | exact Hin].
Qed.

Lemma upsert_key_present (k : string) (set : R -> R) (row : R) (rows : list R) :
  (forall r, key (set r) = key r) ->
  key row = k ->
  In k (map key (Pg.upsert (conflicts k) set row rows)).
Proof.
  intros Hset Hrow.
  destruct (existsb (conflicts k) rows) eqn:Hex.
  - rewrite upsert_keys_of_conflict by assumption.
    apply existsb_exists in Hex. destruct Hex as [r [Hr Hc]].
    unfold conflicts in Hc. apply String.eqb_eq in Hc. rewrite <- Hc.
    apply in_map, Hr.
  - rewrite upsert_keys_of_insert by assumption.
    rewrite map_app, in_app_iff. right. simpl. left. exact Hrow.
Qed.

(** Rows with another key are left as they are. *)
Lemma upsert_other_key (k k' : string) (set : R -> R) (row : R) (rows : list R) :
  (forall r, key (set r) = key r) ->
  key row = k ->
  k <> k' ->
  filter (conflicts k') (Pg.upsert (conflicts k) set row rows)
  = filter (conflicts k') rows.
Proof.
  intros Hset Hrow Hne. unfold Pg.upsert.
  destruct (existsb (conflicts k) rows).
  - induction rows as [|r rows IH]; simpl; [reflexivity|].
    destruct (conflicts k r) eqn:E; unfold conflicts in E |- *.
    + rewrite Hset. apply String.eqb_eq in E.
      destruct (String.eqb_spec (key r) k') as [E'|E']; [congruence | exact IH].
    + destruct (key r =? k')%string; [f_equal|]; exact IH.
  - rewrite filter_app. simpl. unfold conflicts at 2. rewrite Hrow.
    destruct (String.eqb_spec k k'); [contradiction|]. apply app_nil_r.
Qed.

End Upsert.

(* ===================================================================== *)
(** ** Running the service *)
(* ===================================================================== *)

Lemma quote_requests_app (a b : list Event) :
  quote_requests (a ++ b) = quote_requests a ++ quote_requests b.
Proof. apply flat_map_app. Qed.

Lemma timeouts_app (a b : list Event) : timeouts (a ++ b) = timeouts a ++ timeouts b.
Proof. apply flat_map_app. Qed.

(** Symbolic execution: unfold the monad and the primitives. *)
Ltac run :=
  unfold exec, outcome, getQuote, getCompanyProfile, fetchFromFinnhub,
    Promise_all, Promise_catch_null, settled, rethrow, setTimeout,
    select_market_data, select_watched_assets, insert_market_data,
    insert_watched_assets, update_watched_assets, delete_watched_assets,
    generateSparklineData, emit, await_io, new_Date, gen_random_uuid,
    try_catch, bind, ret, throw;
  simpl.

Ltac trace_norm :=
  repeat rewrite <- app_assoc;
  repeat rewrite quote_requests_app;
  repeat rewrite timeouts_app;
  simpl;
  repeat rewrite app_nil_r.

Lemma exec_bind {A B : Type} (m : Async A) (k : A -> Async B) (w : World) :
  exec (bind m k) w =
  match outcome m w with
  | Return a => exec (k a) (exec m w)
  | Throw _ => exec m w
  end.
Proof. unfold exec, outcome, bind. destruct (m w) as [[a|e] w']; reflexivity. Qed.

Lemma outcome_bind {A B : Type} (m : Async A) (k : A -> Async B) (w : World) :
  outcome (bind m k) w =
  match outcome m w with
  | Return a => outcome (k a) (exec m w)
  | Throw e => Throw e
  end.
Proof. unfold exec, outcome, bind. destruct (m w) as [[a|e] w']; reflexivity. Qed.

Lemma exec_try_catch {A : Type} (m : Async A) (handler : Exn -> Async A) (w : World) :
  exec (try_catch m handler) w =
  match outcome m w with
  | Return _ => exec m w
  | Throw e => exec (handler e) (exec m w)
  end.
Proof. unfold exec, outcome, try_catch. destruct (m w) as [[a|e] w']; reflexivity. Qed.

Lemma outcome_try_catch {A : Type} (m : Async A) (handler : Exn -> Async A) (w : World) :
  outcome (try_catch m handler) w =
  match outcome m w with
  | Return a => Return a
  | Throw e => outcome (handler e) (exec m w)
  end.
Proof. unfold exec, outcome, try_catch. destruct (m w) as [[a|e] w']; reflexivity. Qed.

(** A loop whose body cannot throw runs every iteration, each from the
    world the one before has left. *)
Lemma for_of_total {A : Type} (body : A -> Async unit) (l : list A) :
  (forall x, total (body x)) -> total (for_of l body).
Proof.
  intros Hbody. induction l as [|x l IH]; intros w; simpl.
  - exists tt. reflexivity.
  - rewrite outcome_bind. destruct (Hbody x w) as [u ->]. apply IH.
Qed.

Lemma for_of_app {A : Type} (body : A -> Async unit) (l1 l2 : list A) (w : World) :
  (forall x, total (body x)) ->
  exec (for_of (l1 ++ l2) body) w = exec (for_of l2 body) (exec (for_of l1 body) w).
Proof.
  intros Hbody. revert w. induction l1 as [|x l1 IH]; intros w; simpl.
  - reflexivity.
  - rewrite !exec_bind. destruct (Hbody x w) as [u ->]. apply IH.
Qed.

Lemma for_of_cons {A : Type} (body : A -> Async unit) (x : A) (l : list A) (w : World) :
  (forall x, total (body x)) ->
  exec (for_of (x :: l) body) w = exec (for_of l body) (exec (body x) w).
Proof.
  intros Hbody. simpl. rewrite exec_bind. destruct (Hbody x w) as [u ->]. reflexivity.
Qed.

Lemma for_of_preserves {A : Type} (P : World -> Prop) (body : A -> Async unit)
    (l : list A) :
  (forall x, preserves P (body x)) -> preserves P (for_of l body).
Proof.
  intros Hbody. induction l as [|x l IH]; intros w Hw; simpl.
  - exact Hw.
  - rewrite exec_bind. destruct (outcome (body x) w).
    + apply IH, Hbody, Hw.
    + apply Hbody, Hw.
Qed.

(** *** updateMarketData *)

(** The refresh throws when the quote request fails: the cache is not
    touched, and no timer is set. *)
Lemma updateMarketData_throws (up : Upstream) (symbol : string) (w : World) :
  is_payload (quote_reply up symbol (awaited w)) = false ->
  let w' := exec (updateMarketData up symbol) w in
  (exists e, outcome (updateMarketData up symbol) w = Throw e) /\
  market_data w' = market_data w /\
  watched_assets w' = watched_assets w /\
  quote_requests (trace w') = quote_requests (trace w) ++ [symbol] /\
  timeouts (trace w') = timeouts (trace w) /\
  clock w <= clock w'.
Proof.
  intros Hq. unfold updateMarketData. run.
  destruct (quote_reply up symbol (awaited w)); try discriminate; simpl;
    destruct (profile_reply up symbol (S (awaited w))); simpl;
    (repeat split; [eexists; reflexivity | trace_norm; reflexivity .. | lia]).
Qed.

(** The refresh returns when the quote request succeeds, and has upserted
    the row of the symbol. *)
Lemma updateMarketData_returns (up : Upstream) (symbol : string) (w : World)
    (quote : FinnhubQuote.t) :
  quote_reply up symbol (awaited w) = Payload quote ->
  let w' := exec (updateMarketData up symbol) w in
  exists profile sparklineData id t,
    outcome (updateMarketData up symbol) w = Return tt /\
    market_data w' =
      Pg.upsert (symbol_is symbol) (set_quote quote sparklineData t)
        (quote_row symbol quote profile (stockInfo_of symbol) sparklineData id (clock w'))
        (market_data w) /\
    profile = match profile_reply up symbol (S (awaited w)) with
              | Payload p => Some p
              | _ => None
              end /\
    clock w <= t <= clock w' /\
    watched_assets w' = watched_assets w /\
    quote_requests (trace w') = quote_requests (trace w) ++ [symbol] /\
    timeouts (trace w') = timeouts (trace w).
Proof.
  intros Hq. unfold updateMarketData. run. rewrite Hq. simpl.
  destruct (profile_reply up symbol (S (awaited w))); simpl;
    do 4 eexists; repeat split.
  all: try reflexivity.
  all: try (trace_norm; reflexivity).
  all: try lia.
Qed.

Lemma cached_existsb (symbol : string) (w : World) :
  cached symbol w = None <-> existsb (symbol_is symbol) (market_data w) = false.
Proof.
  unfold cached. induction (market_data w) as [|r rows IH]; simpl.
  - tauto.
  - destruct (symbol_is symbol r); simpl; [split; discriminate | exact IH].
Qed.

Lemma set_quote_symbol (quote : FinnhubQuote.t) (sparklineData : list Q) (t : Z)
    (r : MarketData.t) :
  MarketData.symbol (set_quote quote sparklineData t r) = MarketData.symbol r.
Proof. reflexivity. Qed.

Lemma upsert_holds_quote (symbol : string) (quote : FinnhubQuote.t)
    (profile : option FinnhubCompanyProfile.t) (stockInfo : option Stock.t)
    (sparklineData : list Q) (id : nat) (from t now : Z) (rows : list MarketData.t)
    (r : MarketData.t) :
  from <= t <= now ->
  In r (Pg.upsert (symbol_is symbol) (set_quote quote sparklineData t)
          (quote_row symbol quote profile stockInfo sparklineData id now) rows) ->
  MarketData.symbol r = symbol ->
  holds_quote quote sparklineData from now r.
Proof.
  intros Ht Hin Hsym. unfold Pg.upsert in Hin.
  destruct (existsb (symbol_is symbol) rows) eqn:Hex.
  - apply in_map_iff in Hin. destruct Hin as [r0 [Hr0 _]].
    destruct (symbol_is symbol r0) eqn:Hc.
    + subst r. repeat split. exists t. split; [reflexivity | exact Ht].
    + subst r. unfold symbol_is in Hc. apply String.eqb_neq in Hc. contradiction.
  - apply in_app_iff in Hin. destruct Hin as [Hin|[<-|[]]].
    + exfalso. assert (existsb (symbol_is symbol) rows = true) as E; [|congruence].
      apply existsb_exists. exists r. split; [exact Hin|].
      unfold symbol_is. apply String.eqb_eq, Hsym.
    + repeat split. exists now. split; [reflexivity | lia].
Qed.

(* ===================================================================== *)
(** ** The market data cache *)
(* ===================================================================== *)

(** What a refresh does to the table: the symbol column stays free of
    duplicates; when the quote arrives, the call returns and exactly one row
    carries the symbol; a row that was there is updated where it stands,
    and in every case the row holds the quote of this refresh. *)
Lemma updateMarketData_upserts (up : Upstream) (w : World) (symbol : string) :
  unique_symbols w ->
  let w' := exec (updateMarketData up symbol) w in
  unique_symbols w' /\
  forall quote, quote_reply up symbol (awaited w) = Payload quote ->
    outcome (updateMarketData up symbol) w = Return tt /\
    List.length (filter (symbol_is symbol) (market_data w')) = 1%nat /\
    exists sparklineData,
      (cached symbol w <> None ->
       exists t, market_data w' =
                 Pg.update (symbol_is symbol) (set_quote quote sparklineData t)
                   (market_data w)) /\
      (forall r, In r (market_data w') -> MarketData.symbol r = symbol ->
                 holds_quote quote sparklineData (clock w) (clock w') r).
Proof.
  intros Hnd w'. unfold unique_symbols in *.
  destruct (quote_reply up symbol (awaited w)) as [| | |quote] eqn:Hq.
  1-3: split;
    [ destruct (updateMarketData_throws up symbol w) as (_ & Hmd & _);
      [rewrite Hq; reflexivity | unfold w'; rewrite Hmd; exact Hnd]
    | intros quote Hq'; discriminate ].
  destruct (updateMarketData_returns up symbol w quote Hq)
    as (profile & sparklineData & id & t & Hout & Hmd & _ & Ht & _).
  fold w' in Hmd, Ht.
  assert (NoDup (map MarketData.symbol (market_data w'))) as Hnd'.
  { rewrite Hmd. apply (upsert_NoDup MarketData.symbol); auto. }
  split; [exact Hnd'|].
  intros quote' Hq'. injection Hq' as <-.
  split; [exact Hout|]. split.
  - apply (filter_key_length MarketData.symbol); [exact Hnd'|].
    rewrite Hmd. apply (upsert_key_present MarketData.symbol); auto.
  - exists sparklineData. split.
    + intros Hc. exists t. rewrite Hmd. unfold Pg.upsert, Pg.update.
      destruct (existsb (symbol_is symbol) (market_data w)) eqn:Hex; [reflexivity|].
      apply cached_existsb in Hex. contradiction.
    + intros r Hin Hsym. rewrite Hmd in Hin.
      eapply upsert_holds_quote; eauto.
Qed.

(** Every catalog entry has a name and a sector. *)
Lemma catalog_entries_named (symbol : string) (stock : Stock.t) :
  stockInfo_of symbol = Some stock ->
  Js.truthy (Some (Stock.name stock)) = true /\
  Js.truthy (Some (Stock.sector stock)) = true.
Proof.
  intros Hfind. apply find_some in Hfind. destruct Hfind as [Hin _].
  assert (forallb (fun st => Js.truthy (Some (Stock.name st)) &&
                             Js.truthy (Some (Stock.sector st)))
            (Js.values_flat EXCHANGE_STOCKS) = true) as Hall by reflexivity.
  rewrite forallb_forall in Hall. apply andb_true_iff, Hall, Hin.
Qed.

Lemma or_else_truthy (s fallback : string) :
  Js.truthy (Some s) = true -> Js.or_else (Some s) fallback = s.
Proof. unfold Js.or_else, Js.or. intros ->. reflexivity. Qed.




Lemma getMarketDataFromDB_returns (up : Upstream) (w : World)
    (symbols : option (list string)) :
  (exists rows, outcome (getMarketDataFromDB up symbols) w = Return rows) /\
  market_data (exec (getMarketDataFromDB up symbols) w) = market_data w.
Proof.
  destruct symbols as [[|s rest]|]; unfold getMarketDataFromDB; run;
    (split; [eexists; reflexivity | reflexivity]).
Qed.



(* ===================================================================== *)
(** ** The watch list *)
(* ===================================================================== *)

(** The best-effort refresh at the head of [addWatchedAsset] never throws
    and leaves the watch list alone. *)
Lemma refresh_before_watch (up : Upstream) (symbol : string) (w : World) :
  let m := try_catch (updateMarketData up symbol)
             (fun _ => emit (Console (CouldNotFetch symbol))) in
  outcome m w = Return tt /\ watched_assets (exec m w) = watched_assets w.
Proof.
  intros m. unfold m. rewrite outcome_try_catch, exec_try_catch.
  destruct (quote_reply up symbol (awaited w)) as [| | |quote] eqn:Hq.
  1-3: destruct (updateMarketData_throws up symbol w) as ([e He] & _ & Hw & _);
    [rewrite Hq; reflexivity | rewrite He; split; [reflexivity | exact Hw]].
  destruct (updateMarketData_returns up symbol w quote Hq)
    as (? & ? & ? & ? & Hout & _ & _ & _ & Hw & _).
  rewrite Hout. split; [reflexivity | exact Hw].
Qed.

Lemma addWatchedAsset_throws (up : Upstream) (w : World) (userId symbol : string)
    (isFavorite : bool) (extraData : option ExtraData.t) :
  let m := addWatchedAsset up userId symbol isFavorite extraData in
  outcome m w = Throw Pg.no_arbiter /\
  watched_assets (exec m w) = watched_assets w.
Proof.
  intros m. unfold m, addWatchedAsset.
  rewrite outcome_bind, exec_bind.
  destruct (refresh_before_watch up symbol w) as [Hout Hw].
  cbv zeta in Hout, Hw. rewrite Hout, <- Hw.
  split; reflexivity.
Qed.


(** Had the table a unique index on (user_id, symbol), the same statement
    would be an upsert: one row for the pair after any number of calls. *)
Lemma upsert_on_watch_key (userId symbol : string) (isFavorite : bool)
    (extraData : option ExtraData.t) (id1 id2 : nat) (t1 t2 u1 u2 : Z)
    (rows : list WatchedAsset.t) :
  filter (watch_key userId symbol) rows = [] ->
  let once :=
    Pg.upsert (watch_key userId symbol) (set_favorite isFavorite u1)
      (watch_row userId symbol isFavorite extraData id1 t1) rows in
  let twice :=
    Pg.upsert (watch_key userId symbol) (set_favorite isFavorite u2)
      (watch_row userId symbol isFavorite extraData id2 t2) once in
  List.length (filter (watch_key userId symbol) once) = 1%nat /\
  List.length (filter (watch_key userId symbol) twice) = 1%nat /\
  List.length twice = List.length once.
Proof.
  intros Hnone once twice.
  assert (existsb (watch_key userId symbol) rows = false) as Hex.
  { destruct (existsb (watch_key userId symbol) rows) eqn:E; [|reflexivity].
    apply existsb_exists in E. destruct E as [r [Hr Hk]].
    assert (In r (filter (watch_key userId symbol) rows)) as Hin
      by (apply filter_In; split; assumption).
    rewrite Hnone in Hin. destruct Hin. }
  assert (watch_key userId symbol (watch_row userId symbol isFavorite extraData id1 t1)
          = true) as Hkey.
  { unfold watch_key. simpl. rewrite !String.eqb_refl. reflexivity. }
  assert (once = rows ++ [watch_row userId symbol isFavorite extraData id1 t1]) as Honce.
  { unfold once, Pg.upsert. rewrite Hex. reflexivity. }
  assert (filter (watch_key userId symbol) once
          = [watch_row userId symbol isFavorite extraData id1 t1]) as Hf.
  { rewrite Honce, filter_app, Hnone. simpl. rewrite Hkey. reflexivity. }
  assert (existsb (watch_key userId symbol) once = true) as Hex'.
  { apply existsb_exists. eexists. split; [|exact Hkey].
    rewrite Honce. apply in_app_iff. right. left. reflexivity. }
  split; [rewrite Hf; reflexivity|].
  unfold twice, Pg.upsert. rewrite Hex'. split.
  - rewrite Honce, map_app, filter_app. simpl. rewrite Hkey. simpl.
    assert (filter (watch_key userId symbol)
              (map (fun r => if watch_key userId symbol r
                             then set_favorite isFavorite u2 r else r) rows) = []) as ->.
    { clear - Hnone. induction rows as [|r rows IH]; simpl in *; [reflexivity|].
      destruct (watch_key userId symbol r) eqn:E; [discriminate|].
      rewrite E. apply IH, Hnone. }
    unfold watch_key at 1. simpl. rewrite !String.eqb_refl. reflexivity.
  - apply length_map.
Qed.

(** *** toggleFavorite *)

Lemma toggleFavorite_absent_rejected_aux (up : Upstream) (w : World)
    (userId symbol : string) :
  filter (watch_key userId symbol) (watched_assets w) = [] ->
  let m := toggleFavorite up userId symbol in
  outcome m w = Throw Pg.no_arbiter /\
  watched_assets (exec m w) = watched_assets w.
Proof.
  intros Hnone m.
  destruct (addWatchedAsset_throws up (exec (await_io up) w) userId symbol true None)
    as [Hout Hw].
  unfold outcome, exec in Hout, Hw. simpl in Hout, Hw.
  unfold m, toggleFavorite. run. rewrite Hnone. simpl.
  split; [exact Hout | exact Hw].
Qed.



(** On an existing record the flag is replaced by its negation, in every
    row of the pair, and nothing else changes but updated-at. *)
Lemma toggleFavorite_flips (up : Upstream) (w : World) (userId symbol : string)
    (first : WatchedAsset.t) (rest : list WatchedAsset.t) :
  filter (watch_key userId symbol) (watched_assets w) = first :: rest ->
  let m := toggleFavorite up userId symbol in
  outcome m w = Return tt /\
  market_data (exec m w) = market_data w /\
  trace (exec m w) = trace w /\
  exists updatedAt,
    clock w <= updatedAt /\
    watched_assets (exec m w) =
      Pg.update (watch_key userId symbol)
        (set_favorite (js_not (WatchedAsset.isFavorite first)) updatedAt)
        (watched_assets w).
Proof.
  intros Hsome m. unfold m, toggleFavorite. run. rewrite Hsome. simpl.
  repeat split. eexists. split; [|reflexivity]. lia.
Qed.

Lemma filter_update_watch_key (userId symbol : string) (isFavorite : bool) (t : Z)
    (rows : list WatchedAsset.t) :
  filter (watch_key userId symbol)
    (Pg.update (watch_key userId symbol) (set_favorite isFavorite t) rows)
  = map (set_favorite isFavorite t) (filter (watch_key userId symbol) rows).
Proof.
  induction rows as [|r rows IH]; simpl; [reflexivity|].
  destruct (watch_key userId symbol r) eqn:E; simpl.
  - change (watch_key userId symbol (set_favorite isFavorite t r))
      with (watch_key userId symbol r).
    rewrite E. simpl. f_equal. exact IH.
  - rewrite E. exact IH.
Qed.

(** Two toggles on an existing record bring its flag back. *)
Lemma toggleFavorite_twice (up : Upstream) (w : World) (userId symbol : string)
    (first : WatchedAsset.t) (rest : list WatchedAsset.t) (b : bool) :
  filter (watch_key userId symbol) (watched_assets w) = first :: rest ->
  WatchedAsset.isFavorite first = Some b ->
  let m := toggleFavorite up userId symbol in
  outcome m (exec m w) = Return tt /\
  Forall (fun r => WatchedAsset.isFavorite r = Some (negb b))
    (filter (watch_key userId symbol) (watched_assets (exec m w))) /\
  Forall (fun r => WatchedAsset.isFavorite r = Some b)
    (filter (watch_key userId symbol) (watched_assets (exec m (exec m w)))).
Proof.
  intros Hsome Hb m.
  destruct (toggleFavorite_flips up w userId symbol first rest Hsome)
    as (_ & _ & _ & t1 & _ & H1).
  fold m in H1.
  assert (filter (watch_key userId symbol) (watched_assets (exec m w))
          = set_favorite (negb b) t1 first :: map (set_favorite (negb b) t1) rest) as Hf1.
  { rewrite H1, filter_update_watch_key, Hsome, Hb.
    destruct b; reflexivity. }
  destruct (toggleFavorite_flips up (exec m w) userId symbol _ _ Hf1)
    as (Hout & _ & _ & t2 & _ & H2).
  fold m in H2, Hout.
  split; [exact Hout|]. split.
  - rewrite Hf1. apply Forall_forall. intros r [<-|Hr]; [reflexivity|].
    apply in_map_iff in Hr. destruct Hr as [r0 [<- _]]. reflexivity.
  - rewrite H2, filter_update_watch_key. apply Forall_forall. intros r Hr.
    apply in_map_iff in Hr. destruct Hr as [r0 [<- _]]. simpl.
    destruct b; reflexivity.
Qed.

(** *** removeWatchedAsset and getUserWatchedAssets *)

Lemma left_join_fst {A B : Type} (on : A -> B -> bool) (a : list A) (b : list B)
    (row : A * option B) :
  In row (Pg.left_join on a b) -> In (fst row) a.
Proof.
  unfold Pg.left_join. rewrite in_flat_map. intros [x [Hx Hrow]].
  destruct (filter (on x) b) as [|y ys].
  - destruct Hrow as [<-|[]]. exact Hx.
  - apply in_map_iff in Hrow. destruct Hrow as [y' [<- _]]. exact Hx.
Qed.

(** Every entry of a user's watch list is a stored row of that user. *)
Lemma getUserWatchedAssets_rows (up : Upstream) (userId : string) (w : World) :
  exists rows,
    outcome (getUserWatchedAssets up userId) w = Return rows /\
    forall row, In row rows ->
      In (fst row) (watched_assets w) /\
      WatchedAsset.userId (fst row) = Some userId.
Proof.
  unfold getUserWatchedAssets. run. eexists. split; [reflexivity|].
  intros row Hrow. apply order_by_In in Hrow. apply filter_In in Hrow.
  destruct Hrow as [Hjoin Huser]. split.
  - apply left_join_fst in Hjoin. exact Hjoin.
  - unfold opt_string_eqb in Huser.
    destruct (WatchedAsset.userId (fst row)) as [u|]; [|discriminate].
    apply String.eqb_eq in Huser. congruence.
Qed.

Lemma delete_delete {R : Type} (where_ : R -> bool) (rows : list R) :
  Pg.delete where_ (Pg.delete where_ rows) = Pg.delete where_ rows.
Proof.
  unfold Pg.delete. induction rows as [|r rows IH]; simpl; [reflexivity|].
  destruct (where_ r) eqn:E; simpl; [exact IH|].
  rewrite E. simpl. f_equal. exact IH.
Qed.

(** C6.  [removeWatchedAsset] returns, removes the rows of (userId, symbol)
    and no other row, and touches neither the cache nor the outside.  The
    user's watch list has no entry for the symbol afterwards.  A second
    call returns as well and leaves both tables as the first one left
    them. *)
Theorem removeWatchedAsset_idempotent (up : Upstream) (w : World)
    (userId symbol : string) :
  let m := removeWatchedAsset up userId symbol in
  let w' := exec m w in
  outcome m w = Return tt /\
  watched_assets w' =
    filter (fun r => negb (watch_key userId symbol r)) (watched_assets w) /\
  market_data w' = market_data w /\
  trace w' = trace w /\
  (exists rows,
      outcome (getUserWatchedAssets up userId) w' = Return rows /\
      Forall (fun row => WatchedAsset.symbol (fst row) <> symbol) rows) /\
  outcome m w' = Return tt /\
  watched_assets (exec m w') = watched_assets w' /\
  market_data (exec m w') = market_data w' /\
  trace (exec m w') = trace w'.
Proof.
  intros m w'.
  assert (watched_assets w' =
          filter (fun r => negb (watch_key userId symbol r)) (watched_assets w)) as Hdel
    by reflexivity.
  split; [reflexivity|]. split; [exact Hdel|].
  split; [reflexivity|]. split; [reflexivity|]. split.
  - destruct (getUserWatchedAssets_rows up userId w') as [rows [Hout Hrows]].
    exists rows. split; [exact Hout|].
    apply Forall_forall. intros row Hrow.
    destruct (Hrows row Hrow) as [Hin Huser].
    rewrite Hdel in Hin. apply filter_In in Hin. destruct Hin as [_ Hkey].
    intros Hsym. unfold watch_key, opt_string_eqb in Hkey.
    rewrite Huser, Hsym, !String.eqb_refl in Hkey. discriminate.
  - split; [reflexivity|]. split; [|split; reflexivity].
    unfold w', m, removeWatchedAsset. run. apply delete_delete.
Qed.

(* ===================================================================== *)
(** ** Batch refresh *)
(* ===================================================================== *)

Lemma try_catch_total {A : Type} (m : Async A) (handler : Exn -> Async A) :
  (forall e, total (handler e)) -> total (try_catch m handler).
Proof.
  intros Hh w. rewrite outcome_try_catch.
  destruct (outcome m w) as [a|e]; [exists a; reflexivity | apply Hh].
Qed.

Lemma emit_total (e : Event) : total (emit e).
Proof. intros w. exists tt. reflexivity. Qed.

Lemma initializeNorwegianStocks_body_total (up : Upstream) (stock : Stock.t) :
  total (initializeNorwegianStocks_body up stock).
Proof. apply try_catch_total. intros e. apply emit_total. Qed.

Lemma initializeExchangeData_body_total (up : Upstream) (exchange : string)
    (stock : Stock.t) :
  total (initializeExchangeData_body up exchange stock).
Proof. apply try_catch_total. intros e. apply emit_total. Qed.

Lemma setTimeout_run (up : Upstream) (ms : Z) (w : World) :
  let w' := exec (setTimeout up ms) w in
  outcome (setTimeout up ms) w = Return tt /\
  trace w' = trace w ++ [SetTimeout ms] /\
  clock w' = clock w + ms + Z.of_nat (io_time up (awaited w)) /\
  market_data w' = market_data w /\
  watched_assets w' = watched_assets w.
Proof. run. repeat split. Qed.

(** One turn of the loop of [initializeNorwegianStocks]: the quote is
    requested; a failure is logged and skips the timer, a success is
    followed by the timer. *)
Lemma initializeNorwegianStocks_body_cases (up : Upstream) (stock : Stock.t) (w : World) :
  let symbol := Stock.symbol stock in
  let w' := exec (initializeNorwegianStocks_body up stock) w in
  quote_requests (trace w') = quote_requests (trace w) ++ [symbol] /\
  clock w <= clock w' /\
  ((is_payload (quote_reply up symbol (awaited w)) = false /\
    market_data w' = market_data w /\
    timeouts (trace w') = timeouts (trace w) /\
    exists tr, trace w' = tr ++ [Console (FailedToInitialize symbol None)])
   \/
   (is_payload (quote_reply up symbol (awaited w)) = true /\
    timeouts (trace w') = timeouts (trace w) ++ [1100] /\
    clock w + 1100 <= clock w')).
Proof.
  intros symbol w'. unfold w', initializeNorwegianStocks_body. fold symbol.
  rewrite exec_try_catch, outcome_bind, exec_bind.
  destruct (quote_reply up symbol (awaited w)) as [| | |quote] eqn:Hq.
  1-3: destruct (updateMarketData_throws up symbol w)
         as ([e He] & Hmd & _ & Hreq & Hto & Hclock);
    [rewrite Hq; reflexivity|];
    rewrite He; unfold exec at 1 3 5 7 9, emit; simpl;
    rewrite quote_requests_app, timeouts_app, Hreq, Hto; simpl;
    rewrite !app_nil_r;
    split; [reflexivity|]; split; [exact Hclock|];
    left; repeat split; [exact Hmd | eexists; reflexivity].
  destruct (updateMarketData_returns up symbol w quote Hq)
    as (? & ? & ? & ? & Hout & _ & _ & Hclock & _ & Hreq & Hto).
  rewrite Hout.
  destruct (setTimeout_run up 1100 (exec (updateMarketData up symbol) w))
    as (Hout' & Htr & Hc & _).
  rewrite Hout', Htr, Hc, quote_requests_app, timeouts_app, Hreq, Hto. simpl.
  rewrite app_nil_r.
  split; [reflexivity|]. split; [lia|].
  right. repeat split. lia.
Qed.

(** Reading the cached row takes its time; then [shouldUpdate] decides. *)
Lemma refresh_if_stale_unfold (up : Upstream) (stock : Stock.t) (w : World) :
  refresh_if_stale up stock w =
  (if shouldUpdate_at up (Stock.symbol stock) w
   then (updateMarketData up (Stock.symbol stock) ;; setTimeout up 1100)
   else ret tt) (snd (await_io up w)).
Proof.
  unfold refresh_if_stale, shouldUpdate_at, cached, select_market_data, new_Date.
  unfold bind at 1 2 3. unfold await_io. cbv beta iota.
  cbn [snd market_data clock set_awaited set_clock].
  destruct (filter (symbol_is (Stock.symbol stock)) (market_data w)) as [|existing rest];
    reflexivity.
Qed.

(** One turn of the loop of [initializeExchangeData]: a fresh row is left
    alone; a stale or missing one is refreshed, a failure being logged and
    a success being followed by the timer. *)
Lemma initializeExchangeData_body_cases (up : Upstream) (exchange : string)
    (stock : Stock.t) (w : World) :
  let symbol := Stock.symbol stock in
  let w' := exec (initializeExchangeData_body up exchange stock) w in
  clock w <= clock w' /\
  watched_assets w' = watched_assets w /\
  ((shouldUpdate_at up symbol w = false /\
    market_data w' = market_data w /\
    trace w' = trace w)
   \/
   (shouldUpdate_at up symbol w = true /\
    is_payload (quote_reply up symbol (S (awaited w))) = false /\
    market_data w' = market_data w /\
    quote_requests (trace w') = quote_requests (trace w) ++ [symbol] /\
    timeouts (trace w') = timeouts (trace w) /\
    exists tr, trace w' = tr ++ [Console (FailedToInitialize symbol (Some exchange))])
   \/
   (shouldUpdate_at up symbol w = true /\
    quote_requests (trace w') = quote_requests (trace w) ++ [symbol] /\
    timeouts (trace w') = timeouts (trace w) ++ [1100] /\
    clock w + 1100 <= clock w' /\
    exists quote profile sparklineData id t now,
      quote_reply up symbol (S (awaited w)) = Payload quote /\
      market_data w' =
        Pg.upsert (symbol_is symbol) (set_quote quote sparklineData t)
          (quote_row symbol quote profile (stockInfo_of symbol) sparklineData id now)
          (market_data w) /\
      clock w + Z.of_nat (io_time up (awaited w)) <= t <= now /\ now <= clock w')).
Proof.
  intros symbol w'.
  set (handler := emit (Console (FailedToInitialize symbol (Some exchange)))).
  assert (w' = match fst (refresh_if_stale up stock w) with
               | Return _ => snd (refresh_if_stale up stock w)
               | Throw _ => exec handler (snd (refresh_if_stale up stock w))
               end) as Hw'.
  { unfold w', initializeExchangeData_body. rewrite exec_try_catch. reflexivity. }
  clearbody w'. rewrite refresh_if_stale_unfold in Hw'. fold symbol in Hw'.
  set (w1 := snd (await_io up w)) in Hw'.
  assert (clock w1 = clock w + Z.of_nat (io_time up (awaited w)) /\
          market_data w1 = market_data w /\
          watched_assets w1 = watched_assets w /\ trace w1 = trace w /\
          awaited w1 = S (awaited w)) as (Hc1 & Hm1 & Hw1 & Ht1 & Ha1).
  { unfold w1, await_io. simpl. repeat split. }
  destruct (shouldUpdate_at up symbol w) eqn:Hs.
  2:{ simpl in Hw'. subst w'. split; [lia|]. split; [exact Hw1|].
      left. repeat split; assumption. }
  change (fst ((updateMarketData up symbol;; setTimeout up 1100) w1))
    with (outcome (updateMarketData up symbol;; setTimeout up 1100) w1) in Hw'.
  change (snd ((updateMarketData up symbol;; setTimeout up 1100) w1))
    with (exec (updateMarketData up symbol;; setTimeout up 1100) w1) in Hw'.
  rewrite outcome_bind, exec_bind in Hw'.
  destruct (quote_reply up symbol (awaited w1)) as [| | |quote] eqn:Hq.
  1-3: destruct (updateMarketData_throws up symbol w1)
         as ([e He] & Hmd & Hwa & Hreq & Hto & Hclock);
    [rewrite Hq; reflexivity|];
    rewrite He in Hw'; subst w'; unfold handler, exec at 1 3 5 7 9 11, emit; simpl;
    rewrite quote_requests_app, timeouts_app, Hreq, Hto, Ht1; simpl;
    rewrite !app_nil_r;
    split; [lia|]; split; [congruence|];
    right; left; rewrite <- Ha1, Hq;
    repeat split; [congruence | eexists; reflexivity].
  destruct (updateMarketData_returns up symbol w1 quote Hq)
    as (profile & sparklineData & id & t & Hout & Hmd & _ & Hclock & Hwa & Hreq & Hto).
  rewrite Hout in Hw'.
  destruct (setTimeout_run up 1100 (exec (updateMarketData up symbol) w1))
    as (Hout' & Htr & Hc & Hmd' & Hwa').
  rewrite Hout' in Hw'. subst w'.
  rewrite Htr, Hc, Hmd', Hwa', quote_requests_app, timeouts_app, Hreq, Hto, Ht1.
  simpl. rewrite !app_nil_r.
  split; [lia|]. split; [congruence|].
  right; right. repeat split; try lia.
  exists quote, profile, sparklineData, id, t, (clock (exec (updateMarketData up symbol) w1)).
  rewrite <- Ha1, <- Hm1. repeat split; try assumption; lia.
Qed.

Lemma initializeNorwegianStocks_loop_requests (up : Upstream) (l : list Stock.t)
    (w : World) :
  quote_requests (trace (exec (for_of l (initializeNorwegianStocks_body up)) w))
  = quote_requests (trace w) ++ map Stock.symbol l.
Proof.
  revert w. induction l as [|stock l IH]; intros w.
  - simpl. rewrite app_nil_r. reflexivity.
  - rewrite for_of_cons by apply initializeNorwegianStocks_body_total.
    rewrite IH.
    destruct (initializeNorwegianStocks_body_cases up stock w) as (Hreq & _).
    rewrite Hreq, <- app_assoc. reflexivity.
Qed.

Lemma for_of_split {A : Type} (body : A -> Async unit) (l before after : list A)
    (x : A) (w : World) :
  (forall x, total (body x)) ->
  l = before ++ x :: after ->
  exec (for_of l body) w
  = exec (for_of after body) (exec (body x) (exec (for_of before body) w)).
Proof.
  intros Hbody ->. rewrite for_of_app by assumption.
  rewrite for_of_cons by assumption. reflexivity.
Qed.

(** C8.  Batch initialization tolerates failures.  Neither batch function
    throws, whatever the provider answers.  Every stock of the list gets
    its turn, run from the world the turns before it have left, so a
    failure in one turn does not stop the later ones; in the Norwegian
    batch the quote of every stock is requested, and in an exchange batch
    the quote of every stock found stale in its turn.  A refresh that
    fails is caught in its own turn, which returns after logging it. *)
Theorem batch_initialization_tolerates_failures (up : Upstream) (w : World) :
  (outcome (initializeNorwegianStocks up) w = Return tt /\
   quote_requests (trace (exec (initializeNorwegianStocks up) w))
   = quote_requests (trace w) ++ map Stock.symbol NORWEGIAN_STOCKS /\
   forall before stock after,
     NORWEGIAN_STOCKS = before ++ stock :: after ->
     exec (initializeNorwegianStocks up) w
     = exec (for_of after (initializeNorwegianStocks_body up))
         (exec (initializeNorwegianStocks_body up stock)
            (exec (for_of before (initializeNorwegianStocks_body up)) w))) /\
  (forall exchange stocks,
     Js.get EXCHANGE_STOCKS exchange = Js.Own stocks ->
     outcome (initializeExchangeData up exchange) w = Return tt /\
     forall before stock after,
       stocks = before ++ stock :: after ->
       exec (initializeExchangeData up exchange) w
       = exec (for_of after (initializeExchangeData_body up exchange))
           (exec (initializeExchangeData_body up exchange stock)
              (exec (for_of before (initializeExchangeData_body up exchange)) w))) /\
  (forall stock w0,
     is_payload (quote_reply up (Stock.symbol stock) (awaited w0)) = false ->
     outcome (initializeNorwegianStocks_body up stock) w0 = Return tt /\
     exists tr,
       trace (exec (initializeNorwegianStocks_body up stock) w0)
       = tr ++ [Console (FailedToInitialize (Stock.symbol stock) None)]) /\
  (forall exchange stock w0,
     shouldUpdate_at up (Stock.symbol stock) w0 = true ->
     outcome (initializeExchangeData_body up exchange stock) w0 = Return tt /\
     quote_requests (trace (exec (initializeExchangeData_body up exchange stock) w0))
     = quote_requests (trace w0) ++ [Stock.symbol stock] /\
     (is_payload (quote_reply up (Stock.symbol stock) (S (awaited w0))) = false ->
      exists tr,
        trace (exec (initializeExchangeData_body up exchange stock) w0)
        = tr ++ [Console (FailedToInitialize (Stock.symbol stock) (Some exchange))])).
Proof.
  split; [|split; [|split]].
  - split; [|split].
    + destruct (for_of_total (initializeNorwegianStocks_body up) NORWEGIAN_STOCKS
                  (initializeNorwegianStocks_body_total up) w) as [[] H].
      exact H.
    + apply initializeNorwegianStocks_loop_requests.
    + intros before stock after Hsplit.
      apply for_of_split; [apply initializeNorwegianStocks_body_total | exact Hsplit].
  - intros exchange stocks Hget. unfold initializeExchangeData. rewrite Hget. split.
    + destruct (for_of_total (initializeExchangeData_body up exchange) stocks
                  (initializeExchangeData_body_total up exchange) w) as [[] H].
      exact H.
    + intros before stock after Hsplit.
      apply for_of_split; [apply initializeExchangeData_body_total | exact Hsplit].
  - intros stock w0 Hfail. split.
    + destruct (initializeNorwegianStocks_body_total up stock w0) as [[] H]. exact H.
    + destruct (initializeNorwegianStocks_body_cases up stock w0)
        as (_ & _ & [(_ & _ & _ & Hlog)|(Hok & _)]); [exact Hlog | congruence].
  - intros exchange stock w0 Hstale. split; [|split].
    + destruct (initializeExchangeData_body_total up exchange stock w0) as [[] H]. exact H.
    + destruct (initializeExchangeData_body_cases up exchange stock w0)
        as (_ & _ & [(Hs & _)|[(_ & _ & _ & Hreq & _)|(_ & Hreq & _)]]);
        [congruence | exact Hreq | exact Hreq].
    + intros Hfail.
      destruct (initializeExchangeData_body_cases up exchange stock w0)
        as (_ & _ & [(Hs & _)|[(_ & _ & _ & _ & _ & Hlog)|(_ & _ & _ & _ & Hok)]]);
        [congruence | exact Hlog |].
      destruct Hok as (quote & ? & ? & ? & ? & ? & Hq & _).
      rewrite Hq in Hfail. discriminate.
Qed.

(** C8 at work: the provider turns every request down, and the Oslo batch
    still returns. *)
Lemma batch_initialization_tolerates_failures_witness :
  Js.get EXCHANGE_STOCKS "OL" = Js.Own NORWEGIAN_STOCKS /\
  outcome (initializeExchangeData rate_limited "OL") (boot 0) = Return tt.
Proof.
  split; [reflexivity|].
  apply (proj1 (proj2 (batch_initialization_tolerates_failures rate_limited (boot 0)))
           "OL"%string NORWEGIAN_STOCKS eq_refl).
Defined.

(** *** The delay between requests *)

Lemma initializeNorwegianStocks_loop_failing (up : Upstream) (l : list Stock.t)
    (w : World) :
  (forall symbol n, is_payload (quote_reply up symbol n) = false) ->
  timeouts (trace (exec (for_of l (initializeNorwegianStocks_body up)) w))
  = timeouts (trace w).
Proof.
  intros Hfail. revert w. induction l as [|stock l IH]; intros w; [reflexivity|].
  rewrite for_of_cons by apply initializeNorwegianStocks_body_total.
  rewrite IH.
  destruct (initializeNorwegianStocks_body_cases up stock w)
    as (_ & _ & [(_ & _ & Hto & _)|(Hok & _)]); [exact Hto|].
  rewrite Hfail in Hok. discriminate.
Qed.

Lemma initializeExchangeData_loop_failing (up : Upstream) (exchange : string)
    (l : list Stock.t) (w : World) :
  (forall symbol n, is_payload (quote_reply up symbol n) = false) ->
  market_data w = [] ->
  let w' := exec (for_of l (initializeExchangeData_body up exchange)) w in
  quote_requests (trace w') = quote_requests (trace w) ++ map Stock.symbol l /\
  timeouts (trace w') = timeouts (trace w).
Proof.
  intros Hfail. revert w. induction l as [|stock l IH]; intros w Hempty.
  - simpl. rewrite app_nil_r. split; reflexivity.
  - cbv zeta. rewrite for_of_cons by apply initializeExchangeData_body_total.
    assert (shouldUpdate_at up (Stock.symbol stock) w = true) as Hstale.
    { unfold shouldUpdate_at, cached. rewrite Hempty. reflexivity. }
    destruct (initializeExchangeData_body_cases up exchange stock w)
      as (_ & _ & [(Hs & _)|[(_ & _ & Hmd & Hreq & Hto & _)|(_ & _ & _ & _ & Hok)]]).
    + congruence.
    + destruct (IH _ (eq_trans Hmd Hempty)) as [IHreq IHto].
      rewrite IHreq, IHto, Hreq, Hto, <- app_assoc. split; reflexivity.
    + destruct Hok as (quote & ? & ? & ? & ? & ? & Hq & _).
      specialize (Hfail (Stock.symbol stock) (S (awaited w))).
      rewrite Hq in Hfail. discriminate.
Qed.

(** C9, on the code.  The timer is set inside the [try], after the refresh
    has returned.  When the provider turns the requests down, each refresh
    throws past the timer: the Norwegian batch, and an exchange batch over
    an empty cache, request the quote of every stock of the list and set no
    timer at all, so consecutive requests go out with no delay between
    them. *)
Theorem batch_sets_no_timer_after_failure (up : Upstream) (w : World) :
  (forall symbol n, is_payload (quote_reply up symbol n) = false) ->
  (let w' := exec (initializeNorwegianStocks up) w in
   quote_requests (trace w') = quote_requests (trace w) ++ map Stock.symbol NORWEGIAN_STOCKS /\
   timeouts (trace w') = timeouts (trace w)) /\
  (forall exchange stocks,
     Js.get EXCHANGE_STOCKS exchange = Js.Own stocks ->
     market_data w = [] ->
     let w' := exec (initializeExchangeData up exchange) w in
     quote_requests (trace w') = quote_requests (trace w) ++ map Stock.symbol stocks /\
     timeouts (trace w') = timeouts (trace w)).
Proof.
  intros Hfail. split.
  - split.
    + apply initializeNorwegianStocks_loop_requests.
    + apply initializeNorwegianStocks_loop_failing, Hfail.
  - intros exchange stocks Hget Hempty. unfold initializeExchangeData. rewrite Hget.
    apply initializeExchangeData_loop_failing; assumption.
Qed.

(** C9 at its failing input: eight quote requests at start-up, answered
    with 429, and not one timer. *)
Lemma batch_sets_no_timer_after_failure_witness :
  (forall symbol n, is_payload (quote_reply rate_limited symbol n) = false) /\
  quote_requests (trace (exec (initializeNorwegianStocks rate_limited) (boot 0)))
  = ["EQNR.OL"; "DNB.OL"; "TEL.OL"; "MOWI.OL"; "NHY.OL"; "YAR.OL"; "ORKLA.OL"; "STL.OL"]%string /\
  timeouts (trace (exec (initializeNorwegianStocks rate_limited) (boot 0))) = [].
Proof.
  split; [intros; reflexivity|].
  apply (proj1 (batch_sets_no_timer_after_failure rate_limited (boot 0)
                  (fun _ _ => eq_refl))).
Defined.

(** What does hold: a refresh that returns is followed by the timer, so a
    batch whose requests all succeed waits 1100 ms after each of them. *)
Lemma initializeNorwegianStocks_loop_succeeding (up : Upstream) (l : list Stock.t)
    (w : World) :
  (forall symbol n, is_payload (quote_reply up symbol n) = true) ->
  let w' := exec (for_of l (initializeNorwegianStocks_body up)) w in
  timeouts (trace w') = timeouts (trace w) ++ repeat 1100 (List.length l) /\
  clock w + 1100 * Z.of_nat (List.length l) <= clock w'.
Proof.
  intros Hok. revert w. induction l as [|stock l IH]; intros w.
  - unfold exec. simpl. rewrite app_nil_r. split; [reflexivity | lia].
  - cbv zeta. rewrite for_of_cons by apply initializeNorwegianStocks_body_total.
    destruct (initializeNorwegianStocks_body_cases up stock w)
      as (_ & _ & [(Hfail & _)|(_ & Hto & Hclock)]).
    + rewrite Hok in Hfail. discriminate.
    + destruct (IH (exec (initializeNorwegianStocks_body up stock) w)) as [IHto IHclock].
      rewrite IHto, Hto, <- app_assoc. split; [reflexivity|].
      change (List.length (stock :: l)) with (S (List.length l)).
      rewrite Nat2Z.inj_succ. lia.
Qed.

(* ===================================================================== *)
(** ** Looking an exchange up *)
(* ===================================================================== *)

(** C10, on the code.  "constructor" is no exchange of the catalog, but
    [EXCHANGE_STOCKS["constructor"]] is the function every object literal
    inherits, which is truthy and cannot be iterated.  Both methods pass
    their guard and throw a TypeError at the loop:
    [getMarketDataByExchange] does not report an unsupported exchange, and
    [initializeExchangeData] does not return. *)
Theorem exchange_lookup_reaches_prototype (up : Upstream) (w : World) :
  Js.assoc "constructor" EXCHANGE_STOCKS = None /\
  getMarketDataByExchange up "constructor" w
  = (Throw (TypeError "exchangeStocks is not iterable"), w) /\
  initializeExchangeData up "constructor" w
  = (Throw (TypeError "exchangeStocks is not iterable"), w).
Proof. repeat split. Qed.

(** For a code that is neither in the catalog nor inherited, the guards do
    what they are written for. *)
Lemma exchange_lookup_undefined (up : Upstream) (w : World) (exchange : string) :
  Js.get EXCHANGE_STOCKS exchange = Js.Undefined ->
  getMarketDataByExchange up exchange w
  = (Throw (Error ("Unsupported exchange: " ++ exchange)%string), w) /\
  initializeExchangeData up exchange w = (Return tt, w).
Proof.
  intros Hget. unfold getMarketDataByExchange, initializeExchangeData.
  rewrite Hget. split; reflexivity.
Qed.

(** For a code of the catalog, neither method throws. *)
Lemma exchange_lookup_own (up : Upstream) (w : World) (exchange : string)
    (stocks : list Stock.t) :
  Js.get EXCHANGE_STOCKS exchange = Js.Own stocks ->
  outcome (initializeExchangeData up exchange) w = Return tt /\
  exists rows, outcome (getMarketDataByExchange up exchange) w = Return rows.
Proof.
  intros Hget.
  assert (outcome (initializeExchangeData up exchange) w = Return tt) as Hinit.
  { unfold initializeExchangeData. rewrite Hget.
    destruct (for_of_total (initializeExchangeData_body up exchange) stocks
                (initializeExchangeData_body_total up exchange) w) as [[] H].
    exact H. }
  split; [exact Hinit|].
  unfold getMarketDataByExchange. rewrite Hget, outcome_bind, Hinit.
  apply (getMarketDataFromDB_returns up (exec (initializeExchangeData up exchange) w)).
Qed.

(* ===================================================================== *)
(** ** The staleness window *)
(* ===================================================================== *)

Lemma quote_calls_snoc (symbol s : string) (w w' : World) :
  quote_requests (trace w') = quote_requests (trace w) ++ [s] ->
  quote_calls symbol w' =
  (quote_calls symbol w + if (symbol =? s)%string then 1 else 0)%nat.
Proof.
  intros H. unfold quote_calls. rewrite H, filter_app, length_app. simpl.
  destruct (symbol =? s)%string; reflexivity.
Qed.

Lemma quote_calls_same_trace (symbol : string) (w w' : World) :
  trace w' = trace w -> quote_calls symbol w' = quote_calls symbol w.
Proof. intros H. unfold quote_calls. rewrite H. reflexivity. Qed.

Lemma cached_same_rows (symbol : string) (w w' : World) :
  market_data w' = market_data w -> cached symbol w' = cached symbol w.
Proof. intros H. unfold cached. rewrite H. reflexivity. Qed.

Lemma cached_In (symbol : string) (w : World) (r : MarketData.t) :
  cached symbol w = Some r -> In r (market_data w) /\ MarketData.symbol r = symbol.
Proof.
  unfold cached. intros H.
  destruct (filter (symbol_is symbol) (market_data w)) as [|r0 rest] eqn:F; [discriminate|].
  injection H as ->.
  assert (In r (filter (symbol_is symbol) (market_data w))) as Hin
    by (rewrite F; left; reflexivity).
  apply filter_In in Hin. destruct Hin as [Hin Hs]. split; [exact Hin|].
  apply String.eqb_eq, Hs.
Qed.

Lemma cached_present (symbol : string) (w : World) :
  In symbol (map MarketData.symbol (market_data w)) -> exists r, cached symbol w = Some r.
Proof.
  intros Hin. destruct (cached symbol w) as [r|] eqn:Hc; [exists r; reflexivity|].
  exfalso. apply cached_existsb in Hc. revert Hin.
  apply (no_conflict_not_in MarketData.symbol), Hc.
Qed.

(** The row of another symbol is not touched by a refresh. *)
Lemma cached_other_symbol (symbol s : string) (set : MarketData.t -> MarketData.t)
    (row : MarketData.t) (w w' : World) :
  (forall r, MarketData.symbol (set r) = MarketData.symbol r) ->
  MarketData.symbol row = s ->
  s <> symbol ->
  market_data w' = Pg.upsert (symbol_is s) set row (market_data w) ->
  cached symbol w' = cached symbol w.
Proof.
  intros Hset Hrow Hne Hmd. unfold cached. rewrite Hmd. f_equal.
  apply (upsert_other_key MarketData.symbol); assumption.
Qed.

Lemma initializeExchangeData_body_clock (up : Upstream) (exchange : string)
    (stock : Stock.t) (w : World) :
  clock w <= clock (exec (initializeExchangeData_body up exchange stock) w).
Proof. apply (initializeExchangeData_body_cases up exchange stock w). Qed.

Lemma initializeExchangeData_loop_clock (up : Upstream) (exchange : string)
    (l : list Stock.t) (w : World) :
  clock w <= clock (exec (for_of l (initializeExchangeData_body up exchange)) w).
Proof.
  apply (for_of_preserves (fun w' => clock w <= clock w')); [|lia].
  intros stock w0 H0.
  pose proof (initializeExchangeData_body_clock up exchange stock w0). lia.
Qed.

(** One turn keeps [requested_at_most_once], as long as it ends within
    five minutes of [t0]. *)
Lemma initializeExchangeData_body_once (up : Upstream) (exchange symbol : string)
    (t0 : Z) (calls0 : nat) (stock : Stock.t) (w : World) :
  (forall n, is_payload (quote_reply up symbol n) = true) ->
  t0 <= clock w ->
  requested_at_most_once symbol t0 calls0 w ->
  let w' := exec (initializeExchangeData_body up exchange stock) w in
  clock w' <= t0 + 5 * 60 * 1000 ->
  requested_at_most_once symbol t0 calls0 w'.
Proof.
  intros Hok Ht0 Hinv w' Hend.
  destruct (initializeExchangeData_body_cases up exchange stock w)
    as (Hclock & _ & Hcases).
  fold w' in Hclock, Hcases.
  assert (forall s, quote_requests (trace w') = quote_requests (trace w) ++ [s] ->
                    s <> symbol ->
                    cached symbol w' = cached symbol w ->
                    requested_at_most_once symbol t0 calls0 w') as Hother.
  { intros s Hreq Hne Hcached. unfold requested_at_most_once.
    rewrite (quote_calls_snoc symbol s w w' Hreq), Hcached.
    destruct (String.eqb_spec symbol s) as [E|_]; [congruence|].
    rewrite Nat.add_0_r. exact Hinv. }
  destruct Hcases as [(_ & Hmd & Htr)|[(_ & Hfail & Hmd & Hreq & _)|Hcase]].
  - unfold requested_at_most_once.
    rewrite (quote_calls_same_trace symbol w w' Htr), (cached_same_rows symbol w w' Hmd).
    exact Hinv.
  - destruct (String.eqb_spec (Stock.symbol stock) symbol) as [E|E].
    + rewrite E, Hok in Hfail. discriminate.
    + apply (Hother _ Hreq E). apply cached_same_rows, Hmd.
  - destruct Hcase as (Hstale & Hreq & _ & _ & quote & profile & sparklineData & id
                       & t & now & _ & Hmd & Ht & Hnow).
    destruct (String.eqb_spec (Stock.symbol stock) symbol) as [E|E].
    2:{ apply (Hother _ Hreq E).
        eapply cached_other_symbol; [| |exact E|exact Hmd]; reflexivity. }
    rewrite E in Hstale, Hreq, Hmd.
    destruct Hinv as [Hcalls|(_ & r & tr & Hr & Hlast & Htr)].
    + right. split.
      * rewrite (quote_calls_snoc symbol symbol w w' Hreq), String.eqb_refl. lia.
      * destruct (cached_present symbol w') as [r Hr].
        { rewrite Hmd. apply (upsert_key_present MarketData.symbol); reflexivity. }
        destruct (cached_In symbol w' r Hr) as [Hin Hsym].
        rewrite Hmd in Hin.
        assert (t0 <= t <= now) as Hrange by lia.
        destruct (upsert_holds_quote symbol quote profile (stockInfo_of symbol)
                    sparklineData id t0 t now (market_data w) r Hrange Hin Hsym)
          as (_ & _ & _ & _ & _ & _ & _ & t' & Hlast & Ht').
        exists r, t'. repeat split; [exact Hr | exact Hlast | lia].
    + exfalso. unfold shouldUpdate_at in Hstale. rewrite Hr, Hlast in Hstale.
      simpl getTime in Hstale. apply Z.ltb_lt in Hstale. lia.
Qed.

Lemma initializeExchangeData_loop_once (up : Upstream) (exchange symbol : string)
    (t0 : Z) (calls0 : nat) (l : list Stock.t) (w : World) :
  (forall n, is_payload (quote_reply up symbol n) = true) ->
  t0 <= clock w ->
  requested_at_most_once symbol t0 calls0 w ->
  let w' := exec (for_of l (initializeExchangeData_body up exchange)) w in
  clock w' <= t0 + 5 * 60 * 1000 ->
  requested_at_most_once symbol t0 calls0 w'.
Proof.
  intros Hok. revert w. induction l as [|stock l IH]; intros w Ht0 Hinv w' Hend.
  - exact Hinv.
  - unfold w' in *. rewrite for_of_cons in * by apply initializeExchangeData_body_total.
    set (w1 := exec (initializeExchangeData_body up exchange stock) w) in *.
    pose proof (initializeExchangeData_body_clock up exchange stock w) as H1.
    pose proof (initializeExchangeData_loop_clock up exchange l w1) as H2.
    fold w1 in H1.
    apply IH; [lia | | exact Hend].
    apply initializeExchangeData_body_once; [exact Hok | exact Ht0 | exact Hinv |].
    fold w1. lia.
Qed.




(* ===================================================================== *)
(** ** One row per symbol *)
(* ===================================================================== *)

Lemma preserves_bind {A B : Type} (P : World -> Prop) (m : Async A) (k : A -> Async B) :
  preserves P m -> (forall a, preserves P (k a)) -> preserves P (bind m k).
Proof.
  intros Hm Hk w Hw. rewrite exec_bind.
  destruct (outcome m w); [apply Hk|]; apply Hm, Hw.
Qed.

Lemma preserves_try_catch {A : Type} (P : World -> Prop) (m : Async A)
    (handler : Exn -> Async A) :
  preserves P m -> (forall e, preserves P (handler e)) -> preserves P (try_catch m handler).
Proof.
  intros Hm Hh w Hw. rewrite exec_try_catch.
  destruct (outcome m w); [|apply Hh]; apply Hm, Hw.
Qed.

(** A method that leaves the cache alone keeps every property of it. *)
Lemma preserves_cache_untouched {A : Type} (m : Async A) :
  (forall w, market_data (exec m w) = market_data w) -> preserves unique_symbols m.
Proof. intros H w Hw. unfold unique_symbols. rewrite H. exact Hw. Qed.

Lemma updateMarketData_keeps_unique (up : Upstream) (symbol : string) :
  preserves unique_symbols (updateMarketData up symbol).
Proof. intros w Hw. apply (updateMarketData_upserts up w symbol Hw). Qed.

Lemma setTimeout_keeps_unique (up : Upstream) (ms : Z) :
  preserves unique_symbols (setTimeout up ms).
Proof. apply preserves_cache_untouched. intros w. apply setTimeout_run. Qed.

Lemma emit_keeps_unique (e : Event) : preserves unique_symbols (emit e).
Proof. apply preserves_cache_untouched. reflexivity. Qed.

Create HintDb unique discriminated.
#[local] Hint Resolve preserves_bind preserves_try_catch for_of_preserves
  updateMarketData_keeps_unique setTimeout_keeps_unique emit_keeps_unique : unique.

Lemma initializeNorwegianStocks_keeps_unique (up : Upstream) :
  preserves unique_symbols (initializeNorwegianStocks up).
Proof.
  unfold initializeNorwegianStocks, initializeNorwegianStocks_body.
  auto 8 with unique.
Qed.

Lemma getMarketDataFromDB_keeps_unique (up : Upstream) (symbols : option (list string)) :
  preserves unique_symbols (getMarketDataFromDB up symbols).
Proof.
  apply preserves_cache_untouched. intros w. apply getMarketDataFromDB_returns.
Qed.

Lemma initializeExchangeData_keeps_unique (up : Upstream) (exchange : string) :
  preserves unique_symbols (initializeExchangeData up exchange).
Proof.
  unfold initializeExchangeData.
  destruct (Js.get EXCHANGE_STOCKS exchange) as [stocks|key|];
    [|intros w Hw; exact Hw ..].
  apply for_of_preserves. intros stock.
  unfold initializeExchangeData_body. apply preserves_try_catch; [|auto with unique].
  unfold refresh_if_stale. apply preserves_bind.
  - apply preserves_cache_untouched. reflexivity.
  - intros existingData. apply preserves_bind.
    + apply preserves_cache_untouched. reflexivity.
    + intros now.
      match goal with |- preserves _ (if ?c then _ else _) => destruct c end;
        [auto with unique | intros w Hw; exact Hw].
Qed.

Lemma getMarketDataByExchange_keeps_unique (up : Upstream) (exchange : string) :
  preserves unique_symbols (getMarketDataByExchange up exchange).
Proof.
  unfold getMarketDataByExchange.
  pose proof (initializeExchangeData_keeps_unique up exchange) as Hinit.
  destruct (Js.get EXCHANGE_STOCKS exchange) as [stocks|key|].
  - apply preserves_bind; [exact Hinit|]. intros _.
    apply getMarketDataFromDB_keeps_unique.
  - apply preserves_bind; [exact Hinit|]. intros _ w Hw. exact Hw.
  - intros w Hw. exact Hw.
Qed.

Lemma addWatchedAsset_keeps_unique (up : Upstream) (userId symbol : string)
    (isFavorite : bool) (extraData : option ExtraData.t) :
  preserves unique_symbols (addWatchedAsset up userId symbol isFavorite extraData).
Proof.
  unfold addWatchedAsset. apply preserves_bind; [auto with unique|].
  intros _. apply preserves_cache_untouched. reflexivity.
Qed.

Lemma toggleFavorite_keeps_unique (up : Upstream) (userId symbol : string) :
  preserves unique_symbols (toggleFavorite up userId symbol).
Proof.
  unfold toggleFavorite. apply preserves_bind.
  - apply preserves_cache_untouched. reflexivity.
  - intros [|first rest].
    + apply addWatchedAsset_keeps_unique.
    + apply preserves_cache_untouched. reflexivity.
Qed.

(** Every method keeps the symbol column free of duplicates. *)
Lemma perform_keeps_unique (up : Upstream) (c : Call) (w : World) :
  unique_symbols w -> unique_symbols (perform up c w).
Proof.
  destruct c; simpl perform.
  - apply updateMarketData_keeps_unique.
  - apply initializeNorwegianStocks_keeps_unique.
  - apply getMarketDataFromDB_keeps_unique.
  - apply getMarketDataByExchange_keeps_unique.
  - apply initializeExchangeData_keeps_unique.
  - apply (preserves_cache_untouched (getUserWatchedAssets up userId)). reflexivity.
  - apply addWatchedAsset_keeps_unique.
  - apply toggleFavorite_keeps_unique.
  - apply (preserves_cache_untouched (removeWatchedAsset up userId symbol)). reflexivity.
Qed.

Lemma after_calls_unique (up : Upstream) (t0 : Z) (calls : list Call) :
  unique_symbols (after_calls up t0 calls).
Proof.
  unfold after_calls.
  assert (unique_symbols (boot t0)) as Hboot by constructor.
  revert Hboot. generalize (boot t0).
  induction calls as [|c calls IH]; intros w Hw; simpl.
  - exact Hw.
  - apply IH, perform_keeps_unique, Hw.
Qed.



(* ===================================================================== *)
(** ** The watch list cannot be filled *)
(* ===================================================================== *)

Lemma preserves_watch_list_untouched {A : Type} (m : Async A) :
  (forall w, watched_assets (exec m w) = watched_assets w) ->
  preserves nothing_watched m.
Proof. intros H w Hw. unfold nothing_watched. rewrite H. exact Hw. Qed.

Lemma updateMarketData_watch_list (up : Upstream) (symbol : string) :
  preserves nothing_watched (updateMarketData up symbol).
Proof.
  apply preserves_watch_list_untouched. intros w.
  destruct (quote_reply up symbol (awaited w)) as [| | |quote] eqn:Hq.
  1-3: apply (updateMarketData_throws up symbol w); rewrite Hq; reflexivity.
  destruct (updateMarketData_returns up symbol w quote Hq)
    as (? & ? & ? & ? & _ & _ & _ & _ & Hw & _).
  exact Hw.
Qed.

Lemma setTimeout_watch_list (up : Upstream) (ms : Z) :
  preserves nothing_watched (setTimeout up ms).
Proof. apply preserves_watch_list_untouched. intros w. apply setTimeout_run. Qed.

Lemma emit_watch_list (e : Event) : preserves nothing_watched (emit e).
Proof. apply preserves_watch_list_untouched. reflexivity. Qed.

Create HintDb watch_list discriminated.
#[local] Hint Resolve preserves_bind preserves_try_catch for_of_preserves
  updateMarketData_watch_list setTimeout_watch_list emit_watch_list : watch_list.

Lemma initializeExchangeData_watch_list (up : Upstream) (exchange : string) :
  preserves nothing_watched (initializeExchangeData up exchange).
Proof.
  unfold initializeExchangeData.
  destruct (Js.get EXCHANGE_STOCKS exchange) as [stocks|key|];
    [|intros w Hw; exact Hw ..].
  apply for_of_preserves. intros stock w Hw. unfold nothing_watched.
  rewrite (proj1 (proj2 (initializeExchangeData_body_cases up exchange stock w))).
  exact Hw.
Qed.

Lemma getMarketDataFromDB_watch_list (up : Upstream) (symbols : option (list string)) :
  preserves nothing_watched (getMarketDataFromDB up symbols).
Proof.
  apply preserves_watch_list_untouched. intros w.
  destruct symbols as [[|s rest]|]; reflexivity.
Qed.

Lemma addWatchedAsset_watch_list (up : Upstream) (userId symbol : string)
    (isFavorite : bool) (extraData : option ExtraData.t) :
  preserves nothing_watched (addWatchedAsset up userId symbol isFavorite extraData).
Proof.
  apply preserves_watch_list_untouched. intros w. apply addWatchedAsset_throws.
Qed.

Lemma initializeNorwegianStocks_watch_list (up : Upstream) :
  preserves nothing_watched (initializeNorwegianStocks up).
Proof.
  unfold initializeNorwegianStocks, initializeNorwegianStocks_body.
  auto 8 with watch_list.
Qed.

Lemma getMarketDataByExchange_watch_list (up : Upstream) (exchange : string) :
  preserves nothing_watched (getMarketDataByExchange up exchange).
Proof.
  unfold getMarketDataByExchange.
  pose proof (initializeExchangeData_watch_list up exchange) as Hinit.
  destruct (Js.get EXCHANGE_STOCKS exchange) as [stocks|key|].
  - apply preserves_bind; [exact Hinit|]. intros _.
    apply getMarketDataFromDB_watch_list.
  - apply preserves_bind; [exact Hinit|]. intros _ w Hw. exact Hw.
  - intros w Hw. exact Hw.
Qed.

Lemma toggleFavorite_watch_list (up : Upstream) (userId symbol : string) :
  preserves nothing_watched (toggleFavorite up userId symbol).
Proof.
  intros w Hw. unfold nothing_watched in *.
  destruct (toggleFavorite_absent_rejected_aux up w userId symbol) as [_ H].
  - rewrite Hw. reflexivity.
  - rewrite H. exact Hw.
Qed.

Lemma removeWatchedAsset_watch_list (up : Upstream) (userId symbol : string) :
  preserves nothing_watched (removeWatchedAsset up userId symbol).
Proof.
  intros w Hw. unfold nothing_watched in *. unfold removeWatchedAsset. run.
  rewrite Hw. reflexivity.
Qed.

(** No sequence of calls puts a row into [watched_assets]: the only insert
    is the one the database rejects. *)
Lemma watch_list_stays_empty (up : Upstream) (t0 : Z) (calls : list Call) :
  nothing_watched (after_calls up t0 calls).
Proof.
  unfold after_calls.
  assert (nothing_watched (boot t0)) as Hboot by reflexivity.
  revert Hboot. generalize (boot t0).
  induction calls as [|c calls IH]; intros w Hw; simpl; [exact Hw|].
  apply IH. destruct c; simpl perform.
  - apply updateMarketData_watch_list, Hw.
  - apply initializeNorwegianStocks_watch_list, Hw.
  - apply getMarketDataFromDB_watch_list, Hw.
  - apply getMarketDataByExchange_watch_list, Hw.
  - apply initializeExchangeData_watch_list, Hw.
  - exact Hw.
  - apply addWatchedAsset_watch_list, Hw.
  - apply toggleFavorite_watch_list, Hw.
  - apply removeWatchedAsset_watch_list, Hw.
Qed.

(* ===================================================================== *)
(** ** Further properties of the watch list *)
(* ===================================================================== *)

Lemma update_outside {R : Type} (where_ : R -> bool) (set : R -> R) (rows : list R) :
  (forall r, where_ (set r) = where_ r) ->
  filter (fun r => negb (where_ r)) (Pg.update where_ set rows)
  = filter (fun r => negb (where_ r)) rows.
Proof.
  intros Hset. induction rows as [|r rows IH]; simpl; [reflexivity|].
  destruct (where_ r) eqn:E; simpl.
  - rewrite Hset, E. simpl. exact IH.
  - rewrite E. simpl. f_equal. exact IH.
Qed.

(** X1.  On a pair that has a record, [toggleFavorite] returns without
    touching the cache or the outside.  Every row of the pair gets the
    negation of the flag of the first one and the time of the call as
    updated-at; the rows of other pairs, and the number of rows, stay as
    they are. *)
Theorem toggleFavorite_existing_record (up : Upstream) (w : World)
    (userId symbol : string) (first : WatchedAsset.t) (rest : list WatchedAsset.t) :
  filter (watch_key userId symbol) (watched_assets w) = first :: rest ->
  let m := toggleFavorite up userId symbol in
  let w' := exec m w in
  outcome m w = Return tt /\
  market_data w' = market_data w /\
  trace w' = trace w /\
  List.length (watched_assets w') = List.length (watched_assets w) /\
  filter (fun r => negb (watch_key userId symbol r)) (watched_assets w')
  = filter (fun r => negb (watch_key userId symbol r)) (watched_assets w) /\
  exists updatedAt,
    clock w <= updatedAt <= clock w' /\
    Forall (fun r => WatchedAsset.isFavorite r = Some (js_not (WatchedAsset.isFavorite first)) /\
                     WatchedAsset.updatedAt r = Some updatedAt)
      (filter (watch_key userId symbol) (watched_assets w')).
Proof.
  intros Hsome m w'.
  assert (exists t, clock w <= t <= clock w' /\
            watched_assets w' =
              Pg.update (watch_key userId symbol)
                (set_favorite (js_not (WatchedAsset.isFavorite first)) t)
                (watched_assets w)) as (t & Ht & Hrows).
  { unfold w', m, toggleFavorite. run. rewrite Hsome. simpl.
    eexists. split; [|reflexivity]. lia. }
  destruct (toggleFavorite_flips up w userId symbol first rest Hsome)
    as (Hout & Hmd & Htr & _).
  fold m in Hout, Hmd, Htr. fold w' in Hmd, Htr.
  repeat split; try assumption.
  - rewrite Hrows. apply length_map.
  - rewrite Hrows. apply update_outside. reflexivity.
  - exists t. split; [exact Ht|].
    rewrite Hrows, filter_update_watch_key. apply Forall_forall.
    intros r Hr. apply in_map_iff in Hr. destruct Hr as [r0 [<- _]].
    split; reflexivity.
Qed.

Lemma toggleFavorite_existing_record_witness :
  filter (watch_key "dev-user" "EQNR.OL") (watched_assets sample_watch_world)
  = [sample_watch] /\
  outcome (toggleFavorite quotes_only "dev-user" "EQNR.OL") sample_watch_world = Return tt.
Proof.
  split; [reflexivity|].
  apply (toggleFavorite_existing_record quotes_only sample_watch_world
           "dev-user" "EQNR.OL" sample_watch [] eq_refl).
Defined.

(** X2.  Two toggles in a row on a pair that has a record both return,
    and leave every row of the pair with the flag the first row had, when
    that flag was a boolean.  A NULL flag counts as false: it is true after
    one toggle and false, not NULL, after two. *)
Theorem toggleFavorite_involution (up : Upstream) (w : World)
    (userId symbol : string) (first : WatchedAsset.t) (rest : list WatchedAsset.t) :
  filter (watch_key userId symbol) (watched_assets w) = first :: rest ->
  let m := toggleFavorite up userId symbol in
  let flag := match WatchedAsset.isFavorite first with
              | Some b => b
              | None => false
              end in
  outcome m w = Return tt /\
  outcome m (exec m w) = Return tt /\
  Forall (fun r => WatchedAsset.isFavorite r = Some (negb flag))
    (filter (watch_key userId symbol) (watched_assets (exec m w))) /\
  Forall (fun r => WatchedAsset.isFavorite r = Some flag)
    (filter (watch_key userId symbol) (watched_assets (exec m (exec m w)))).
Proof.
  intros Hsome m flag.
  destruct (toggleFavorite_flips up w userId symbol first rest Hsome)
    as (Hout1 & _ & _ & t1 & _ & H1).
  fold m in H1, Hout1.
  assert (js_not (WatchedAsset.isFavorite first) = negb flag) as Hneg.
  { unfold flag. destruct (WatchedAsset.isFavorite first) as [[|]|]; reflexivity. }
  rewrite Hneg in H1.
  assert (filter (watch_key userId symbol) (watched_assets (exec m w))
          = set_favorite (negb flag) t1 first :: map (set_favorite (negb flag) t1) rest)
    as Hf1.
  { rewrite H1, filter_update_watch_key, Hsome. reflexivity. }
  destruct (toggleFavorite_flips up (exec m w) userId symbol _ _ Hf1)
    as (Hout2 & _ & _ & t2 & _ & H2).
  fold m in H2, Hout2.
  split; [exact Hout1|]. split; [exact Hout2|]. split.
  - rewrite Hf1. apply Forall_forall. intros r [<-|Hr]; [reflexivity|].
    apply in_map_iff in Hr. destruct Hr as [r0 [<- _]]. reflexivity.
  - rewrite H2, filter_update_watch_key. apply Forall_forall. intros r Hr.
    apply in_map_iff in Hr. destruct Hr as [r0 [<- _]]. simpl.
    destruct flag; reflexivity.
Qed.

Lemma toggleFavorite_involution_witness :
  let m := toggleFavorite quotes_only "dev-user" "EQNR.OL" in
  filter (watch_key "dev-user" "EQNR.OL") (watched_assets sample_watch_world)
  = [sample_watch] /\
  Forall (fun r => WatchedAsset.isFavorite r = Some false)
    (filter (watch_key "dev-user" "EQNR.OL")
       (watched_assets (exec m (exec m sample_watch_world)))).
Proof.
  intros m. split; [reflexivity|].
  apply (toggleFavorite_involution quotes_only sample_watch_world
           "dev-user" "EQNR.OL" sample_watch [] eq_refl).
Defined.

(** X3.  Starting from an empty database, no sequence of calls of the
    service's methods, with whatever answers from the provider, leaves a
    row in [watched_assets]: the one statement that inserts is the one
    the database rejects, and nothing else creates a record. *)
Theorem watched_assets_never_filled (up : Upstream) (t0 : Z) (calls : list Call) :
  watched_assets (after_calls up t0 calls) = [] /\
  forall userId,
    outcome (getUserWatchedAssets up userId) (after_calls up t0 calls) = Return [].
Proof.
  pose proof (watch_list_stays_empty up t0 calls) as Hempty.
  unfold nothing_watched in Hempty. split; [exact Hempty|].
  intros userId. unfold getUserWatchedAssets. run. rewrite Hempty. reflexivity.
Qed.

(** *** getUserWatchedAssets *)

Section Lexicographic.

Context {R : Type} (le1 le2 : R -> R -> bool).
Hypothesis le1_total : forall a b, le1 a b = false -> le1 b a = true.
Hypothesis le1_trans : forall a b c, le1 a b = true -> le1 b c = true -> le1 a c = true.
Hypothesis le2_total : forall a b, le2 a b = false -> le2 b a = true.
Hypothesis le2_trans : forall a b c, le2 a b = true -> le2 b c = true -> le2 a c = true.

Lemma lexicographic_total (a b : R) :
  Pg.lexicographic le1 le2 a b = false -> Pg.lexicographic le1 le2 b a = true.
Proof.
  unfold Pg.lexicographic.
  destruct (le1 a b) eqn:Hab, (le1 b a) eqn:Hba; try congruence.
  - apply le2_total.
  - apply le1_total in Hab. congruence.
Qed.

Lemma lexicographic_trans (a b c : R) :
  Pg.lexicographic le1 le2 a b = true ->
  Pg.lexicographic le1 le2 b c = true ->
  Pg.lexicographic le1 le2 a c = true.
Proof.
  unfold Pg.lexicographic.
  destruct (le1 a b) eqn:Hab; [|discriminate].
  destruct (le1 b c) eqn:Hbc; [|discriminate].
  rewrite (le1_trans a b c Hab Hbc).
  destruct (le1 c a) eqn:Hca; [|reflexivity].
  rewrite (le1_trans b c a Hbc Hca), (le1_trans c a b Hca Hab).
  apply le2_trans.
Qed.

End Lexicographic.

Lemma desc_bool_total (a b : option bool) :
  Pg.desc_bool a b = false -> Pg.desc_bool b a = true.
Proof. destruct a as [[|]|], b as [[|]|]; simpl; congruence. Qed.

Lemma desc_bool_trans (a b c : option bool) :
  Pg.desc_bool a b = true -> Pg.desc_bool b c = true -> Pg.desc_bool a c = true.
Proof. destruct a as [[|]|], b as [[|]|], c as [[|]|]; simpl; congruence. Qed.

Lemma asc_Z_total (a b : option Z) : Pg.asc_Z a b = false -> Pg.asc_Z b a = true.
Proof.
  destruct a as [x|], b as [y|]; simpl; try congruence.
  intros H. apply Z.leb_gt in H. apply Z.leb_le. lia.
Qed.

Lemma asc_Z_trans (a b c : option Z) :
  Pg.asc_Z a b = true -> Pg.asc_Z b c = true -> Pg.asc_Z a c = true.
Proof.
  destruct a as [x|], b as [y|], c as [z|]; simpl; try congruence.
  rewrite !Z.leb_le. lia.
Qed.

Lemma left_join_In {A B : Type} (on : A -> B -> bool) (a : list A) (b : list B)
    (x : A) (o : option B) :
  In (x, o) (Pg.left_join on a b) <->
  In x a /\ match o with
            | Some y => In y b /\ on x y = true
            | None => filter (on x) b = []
            end.
Proof.
  unfold Pg.left_join. rewrite in_flat_map. split.
  - intros [x' [Hx' Hin]].
    destruct (filter (on x') b) as [|y ys] eqn:F.
    + destruct Hin as [E|[]]. injection E as <- <-. split; assumption.
    + apply in_map_iff in Hin. destruct Hin as [y' [E Hy']]. injection E as <- <-.
      split; [exact Hx'|]. apply filter_In. rewrite F. exact Hy'.
  - intros [Hx Ho]. exists x. split; [exact Hx|].
    destruct o as [y|].
    + apply filter_In in Ho. destruct (filter (on x) b) as [|y0 ys]; [destruct Ho|].
      apply in_map_iff. exists y. split; [reflexivity | exact Ho].
    + rewrite Ho. left. reflexivity.
Qed.

Lemma left_join_filter_left {A B : Type} (on : A -> B -> bool) (keep : A -> bool)
    (a : list A) (b : list B) :
  filter (fun row => keep (fst row)) (Pg.left_join on a b)
  = Pg.left_join on (filter keep a) b.
Proof.
  unfold Pg.left_join. induction a as [|x a IH]; [reflexivity|].
  change (flat_map ?f (x :: a)) with (f x ++ flat_map f a).
  rewrite filter_app, IH. cbn [filter].
  assert (forall l : list (A * option B),
            (forall row, In row l -> fst row = x) ->
            filter (fun row => keep (fst row)) l = if keep x then l else []) as Hsame.
  { induction l as [|row l IHl]; intros Hl; simpl.
    - destruct (keep x); reflexivity.
    - rewrite (Hl row (or_introl eq_refl)), IHl by (intros r Hr; apply Hl; right; exact Hr).
      destruct (keep x); reflexivity. }
  rewrite Hsame.
  - destruct (keep x); reflexivity.
  - intros row Hrow. cbv beta in Hrow. destruct (filter (on x) b) as [|y ys].
    + destruct Hrow as [<-|[]]. reflexivity.
    + apply in_map_iff in Hrow. destruct Hrow as [y' [<- _]]. reflexivity.
Qed.

Lemma left_join_length {A B : Type} (on : A -> B -> bool) (a : list A) (b : list B) :
  (forall x, (List.length (filter (on x) b) <= 1)%nat) ->
  List.length (Pg.left_join on a b) = List.length a.
Proof.
  intros Hone. unfold Pg.left_join. induction a as [|x a IH]; [reflexivity|].
  change (flat_map ?f (x :: a)) with (f x ++ flat_map f a).
  rewrite length_app, IH. cbv beta. simpl List.length at 3.
  specialize (Hone x). destruct (filter (on x) b) as [|y [|y' ys]]; simpl in *;
    [reflexivity | reflexivity | lia].
Qed.

Lemma symbol_filter_flip (symbol : string) (rows : list MarketData.t) :
  filter (fun m => (symbol =? MarketData.symbol m)%string) rows
  = filter (symbol_is symbol) rows.
Proof.
  apply filter_ext. intros m. unfold symbol_is. apply String.eqb_sym.
Qed.

Lemma unique_symbols_one_row (symbol : string) (w : World) :
  unique_symbols w ->
  (List.length (filter (symbol_is symbol) (market_data w)) <= 1)%nat.
Proof.
  intros Hnd.
  destruct (existsb (symbol_is symbol) (market_data w)) eqn:Hex.
  - enough (List.length (filter (symbol_is symbol) (market_data w)) = 1%nat) by lia.
    apply (filter_key_length MarketData.symbol); [exact Hnd|].
    apply existsb_exists in Hex. destruct Hex as [r [Hr Hs]].
    apply String.eqb_eq in Hs. rewrite <- Hs. apply in_map, Hr.
  - apply cached_existsb in Hex. unfold cached in Hex.
    destruct (filter (symbol_is symbol) (market_data w)); [simpl; lia | discriminate].
Qed.

(** X4.  [getUserWatchedAssets] returns and changes nothing.  Its entries
    are the records of the user, each with the cached row of its symbol or
    with none when the symbol is not cached; every record of the user has
    an entry; they come favourites first (a NULL flag before true, true
    before false) and, among equal flags, in order of creation; and while
    no two cached rows share a symbol there is exactly one entry per
    record. *)
Theorem getUserWatchedAssets_joined_and_ordered (up : Upstream) (w : World)
    (userId : string) :
  let m := getUserWatchedAssets up userId in
  market_data (exec m w) = market_data w /\
  watched_assets (exec m w) = watched_assets w /\
  trace (exec m w) = trace w /\
  exists rows,
    outcome m w = Return rows /\
    StronglySorted (fun a b => by_favorite_then_created a b = true) rows /\
    (forall record quote,
       In (record, quote) rows <->
       In record (watched_assets w) /\
       WatchedAsset.userId record = Some userId /\
       match quote with
       | Some cache =>
           In cache (market_data w) /\
           MarketData.symbol cache = WatchedAsset.symbol record
       | None => cached (WatchedAsset.symbol record) w = None
       end) /\
    (unique_symbols w ->
     List.length rows
     = List.length (filter (fun r => opt_string_eqb (WatchedAsset.userId r) userId)
                      (watched_assets w))).
Proof.
  intros m. unfold m, getUserWatchedAssets. run.
  repeat split. eexists. split; [reflexivity|].
  set (on := fun (a : WatchedAsset.t) (c : MarketData.t) =>
               (WatchedAsset.symbol a =? MarketData.symbol c)%string).
  split; [|split].
  - apply order_by_sorted.
    + intros a b. unfold by_favorite_then_created.
      apply lexicographic_total; intros x y;
        [apply desc_bool_total | apply asc_Z_total].
    + intros a b c. unfold by_favorite_then_created.
      apply lexicographic_trans; intros x y z;
        [apply desc_bool_trans | apply asc_Z_trans].
  - intros record quote. rewrite order_by_In, filter_In, left_join_In. simpl.
    assert (opt_string_eqb (WatchedAsset.userId record) userId = true <->
            WatchedAsset.userId record = Some userId) as Huser.
    { unfold opt_string_eqb. destruct (WatchedAsset.userId record) as [u|].
      - rewrite String.eqb_eq. split; congruence.
      - split; discriminate. }
    rewrite Huser.
    assert (match quote with
            | Some y => In y (market_data w) /\ on record y = true
            | None => filter (on record) (market_data w) = []
            end <->
            match quote with
            | Some cache =>
                In cache (market_data w) /\
                MarketData.symbol cache = WatchedAsset.symbol record
            | None => cached (WatchedAsset.symbol record) w = None
            end) as Hquote.
    { destruct quote as [cache|].
      - unfold on. rewrite String.eqb_eq. split; intros [H1 H2]; split; congruence.
      - unfold on, cached. rewrite symbol_filter_flip.
        destruct (filter (symbol_is (WatchedAsset.symbol record)) (market_data w));
          simpl; split; congruence. }
    rewrite Hquote. tauto.
  - intros Hnd.
    rewrite <- (Permutation_length (order_by_perm by_favorite_then_created _)).
    rewrite (left_join_filter_left on
               (fun r => opt_string_eqb (WatchedAsset.userId r) userId)).
    apply left_join_length. intros x. unfold on. rewrite symbol_filter_flip.
    apply unique_symbols_one_row, Hnd.
Qed.

(* ===================================================================== *)
(** ** Further properties of the refresh *)
(* ===================================================================== *)



Lemma or_else_empty (fallback : string) : Js.or_else (Some ""%string) fallback = fallback.
Proof. reflexivity. Qed.

Lemma or_else_nonempty (s fallback : string) :
  Js.or_else (Some s) fallback = if (s =? "")%string then fallback else s.
Proof. unfold Js.or_else, Js.or, Js.truthy. destruct (s =? "")%string; reflexivity. Qed.



(** *** The exchange taken from the symbol *)

Lemma split_dot_free (s : string) :
  dot_free s = true -> Js.split "." s = [s].
Proof.
  induction s as [|a s IH]; simpl; [reflexivity|].
  intros H. apply andb_true_iff in H. destruct H as [Ha Hs].
  apply negb_true_iff in Ha. rewrite Ha, (IH Hs). reflexivity.
Qed.

Lemma split_at_dot (a rest : string) :
  dot_free a = true ->
  Js.split "." (a ++ String "." rest)%string = a :: Js.split "." rest.
Proof.
  induction a as [|c a IH]; simpl; intros H.
  - reflexivity.
  - apply andb_true_iff in H. destruct H as [Hc Ha].
    apply negb_true_iff in Hc. rewrite Hc, (IH Ha). reflexivity.
Qed.



(** *** generateSparklineData *)

Lemma Math_round_near (x : Q) :
  (x - (1 # 2) <= inject_Z (Js.Math_round x) <= x + (1 # 2))%Q.
Proof.
  unfold Js.Math_round.
  pose proof (Qfloor_le (x + (1 # 2))) as H1.
  pose proof (Qlt_floor (x + (1 # 2))) as H2.
  rewrite inject_Z_plus in H2. change (inject_Z 1) with 1%Q in H2.
  split; lra.
Qed.

(** A point lies within 2.5 % of the current price, and half a cent of
    rounding, of the trend line. *)
Lemma sparkline_point_near_trend (currentPrice change r : Q) (i : Z) :
  (0 <= r)%Q -> (r < 1)%Q -> (0 <= currentPrice)%Q ->
  (sparkline_trend currentPrice change i - currentPrice * (1 # 40) - (1 # 200)
   <= sparkline_point currentPrice change i r
   <= sparkline_trend currentPrice change i + currentPrice * (1 # 40) + (1 # 200))%Q.
Proof.
  intros Hr0 Hr1 Hc. unfold sparkline_point, sparkline_trend.
  set (price := (currentPrice - change + change * (inject_Z i / 6)
                 + (r - (1 # 2)) * (currentPrice * (5 # 100)))%Q).
  pose proof (Math_round_near (price * 100)) as [H1 H2].
  set (F := inject_Z (Js.Math_round (price * 100))) in *.
  assert (price <= currentPrice - change + change * (inject_Z i / 6)
                   + currentPrice * (1 # 40))%Q as Hup
    by (unfold price; nra).
  assert (currentPrice - change + change * (inject_Z i / 6)
          - currentPrice * (1 # 40) <= price)%Q as Hlo
    by (unfold price; nra).
  clearbody F price.
  assert (F / 100 == F * (1 # 100))%Q as E by reflexivity.
  generalize dependent (inject_Z i / 6)%Q. intros q Hup Hlo.
  split; rewrite E; lra.
Qed.



(* ===================================================================== *)
(** ** The market data routes *)
(* ===================================================================== *)

Lemma StronglySorted_app_before {A : Type} (R : A -> A -> Prop) (l1 l2 : list A) :
  StronglySorted R (l1 ++ l2) ->
  forall a b, In a l1 -> In b l2 -> R a b.
Proof.
  induction l1 as [|x l1 IH]; simpl; intros Hs a b Ha Hb; [destruct Ha|].
  inversion Hs as [|? ? Hs' Hall]; subst.
  destruct Ha as [<-|Ha].
  - rewrite Forall_forall in Hall. apply Hall, in_app_iff. right. exact Hb.
  - apply IH; assumption.
Qed.

Lemma StronglySorted_firstn {A : Type} (R : A -> A -> Prop) (n : nat) (l : list A) :
  StronglySorted R l -> StronglySorted R (firstn n l).
Proof.
  revert l. induction n as [|n IH]; intros l Hs; simpl; [constructor|].
  destruct l as [|x l]; [constructor|].
  inversion Hs as [|? ? Hs' Hall]; subst. constructor; [apply IH, Hs'|].
  rewrite Forall_forall in *. intros y Hy. apply Hall.
  rewrite <- (firstn_skipn n l). apply in_app_iff. left. exact Hy.
Qed.

(** X9.  [GET /api/market/overview] answers 200 without a request to the
    provider and without changing the cache.  It returns the twenty most
    recently updated rows, or all of them when there are fewer, most recent
    first: no row it leaves out is more recent than one it returns. *)
Theorem market_overview_top_twenty (up : Upstream) (w : World) :
  let w' := exec (market_overview up) w in
  market_data w' = market_data w /\
  trace w' = trace w /\
  exists rows,
    outcome (market_overview up) w = Return (Route.json (Route.Rows rows)) /\
    List.length rows = Nat.min 20 (List.length (market_data w)) /\
    StronglySorted (fun a b => by_lastUpdated_desc a b = true) rows /\
    (forall r, In r rows -> In r (market_data w)) /\
    (forall r r',
       In r rows -> In r' (market_data w) -> ~ In r' rows ->
       by_lastUpdated_desc r r' = true).
Proof.
  assert (forall rows : list MarketData.t, filter (fun _ => true) rows = rows) as Hall.
  { induction rows as [|r rows IH]; simpl; [|rewrite IH]; reflexivity. }
  assert (StronglySorted (fun a b => by_lastUpdated_desc a b = true)
            (Pg.order_by by_lastUpdated_desc (market_data w))) as Hsorted.
  { apply order_by_sorted.
    - intros a b. apply desc_Z_total.
    - intros a b c. apply desc_Z_trans. }
  set (sorted := Pg.order_by by_lastUpdated_desc (market_data w)) in *.
  assert (market_overview up w
          = (Return (Route.json (Route.Rows (firstn 20 sorted))), exec (await_io up) w))
    as Hrun.
  { unfold sorted. rewrite <- (Hall (market_data w)) at 1. reflexivity. }
  intros w'. unfold w', exec at 1 2, outcome. rewrite Hrun. cbn [fst snd].
  split; [reflexivity|]. split; [reflexivity|].
  eexists. split; [reflexivity|].
  split; [|split; [|split]].
  - rewrite length_firstn. unfold sorted.
    rewrite <- (Permutation_length (order_by_perm by_lastUpdated_desc (market_data w))).
    reflexivity.
  - apply StronglySorted_firstn, Hsorted.
  - intros r Hr. apply (order_by_In by_lastUpdated_desc). fold sorted.
    rewrite <- (firstn_skipn 20 sorted). apply in_app_iff. left. exact Hr.
  - intros r r' Hr Hr' Hout.
    apply (order_by_In by_lastUpdated_desc) in Hr'. fold sorted in Hr'.
    rewrite <- (firstn_skipn 20 sorted) in Hr', Hsorted.
    apply in_app_iff in Hr'. destruct Hr' as [Hr'|Hr']; [contradiction|].
    apply (StronglySorted_app_before _ _ _ Hsorted r r' Hr Hr').
Qed.



(* ===================================================================== *)
(** ** What every method keeps true of the cache *)
(* ===================================================================== *)

Lemma quiet_ret {A : Type} (a : A) : quiet (ret a).
Proof. intros w. split; [reflexivity | unfold exec; simpl; lia]. Qed.

Lemma quiet_throw {A : Type} (e : Exn) : quiet (@throw A e).
Proof. intros w. split; [reflexivity | unfold exec; simpl; lia]. Qed.

Lemma quiet_bind {A B : Type} (m : Async A) (k : A -> Async B) :
  quiet m -> (forall a, quiet (k a)) -> quiet (bind m k).
Proof.
  intros Hm Hk w. rewrite exec_bind. destruct (Hm w) as [Hmd Hclock].
  destruct (outcome m w) as [a|e]; [|split; assumption].
  destruct (Hk a (exec m w)) as [Hmd' Hclock']. split; [congruence | lia].
Qed.

Lemma quiet_emit (e : Event) : quiet (emit e).
Proof. intros w. split; [reflexivity | unfold exec; simpl; lia]. Qed.

Lemma quiet_setTimeout (up : Upstream) : quiet (setTimeout up 1100).
Proof.
  intros w. destruct (setTimeout_run up 1100 w) as (_ & _ & Hclock & Hmd & _).
  split; [exact Hmd | lia].
Qed.

Lemma quiet_select_market_data (up : Upstream) (where_ : MarketData.t -> bool)
    (shape : list MarketData.t -> list MarketData.t) :
  quiet (select_market_data up where_ shape).
Proof. intros w. split; [reflexivity | unfold exec; simpl; lia]. Qed.

Lemma quiet_getMarketDataFromDB (up : Upstream) (symbols : option (list string)) :
  quiet (getMarketDataFromDB up symbols).
Proof.
  destruct symbols as [[|s rest]|]; apply quiet_select_market_data.
Qed.

Lemma quiet_getUserWatchedAssets (up : Upstream) (userId : string) :
  quiet (getUserWatchedAssets up userId).
Proof. intros w. split; [reflexivity | unfold exec; simpl; lia]. Qed.

Lemma quiet_removeWatchedAsset (up : Upstream) (userId symbol : string) :
  quiet (removeWatchedAsset up userId symbol).
Proof. intros w. split; [reflexivity | unfold exec; simpl; lia]. Qed.

Lemma quiet_watch_insert (up : Upstream) (userId symbol : string) (isFavorite : bool)
    (extraData : option ExtraData.t) :
  quiet (updatedAt <- new_Date ;;
         insert_watched_assets up
           (watch_row userId symbol isFavorite extraData)
           ["user_id"; "symbol"]%string (watch_key userId symbol)
           (set_favorite isFavorite updatedAt)).
Proof. intros w. split; [reflexivity | unfold exec; simpl; lia]. Qed.

Section CacheInvariant.

Variable up : Upstream.
Variable P : World -> Prop.

Hypothesis P_frame :
  forall w w', market_data w' = market_data w -> clock w <= clock w' -> P w -> P w'.
Hypothesis P_update : forall symbol, preserves P (updateMarketData up symbol).

Lemma quiet_preserves {A : Type} (m : Async A) : quiet m -> preserves P m.
Proof. intros Hm w Hw. destruct (Hm w) as [Hmd Hclock]. apply (P_frame w); assumption. Qed.

Lemma initializeNorwegianStocks_invariant : preserves P (initializeNorwegianStocks up).
Proof.
  apply for_of_preserves. intros stock. apply preserves_try_catch.
  - apply preserves_bind; [apply P_update|].
    intros _. apply quiet_preserves, quiet_setTimeout.
  - intros e. apply quiet_preserves, quiet_emit.
Qed.

Lemma initializeExchangeData_invariant (exchange : string) :
  preserves P (initializeExchangeData up exchange).
Proof.
  unfold initializeExchangeData.
  destruct (Js.get EXCHANGE_STOCKS exchange) as [stocks|key|].
  - apply for_of_preserves. intros stock. apply preserves_try_catch.
    + unfold refresh_if_stale. apply preserves_bind.
      * apply quiet_preserves, quiet_select_market_data.
      * intros existingData. apply preserves_bind.
        -- apply quiet_preserves. intros w. split; [reflexivity | unfold exec; simpl; lia].
        -- intros now.
           match goal with |- preserves _ (if ?c then _ else _) => destruct c end.
           ++ apply preserves_bind; [apply P_update|].
              intros _. apply quiet_preserves, quiet_setTimeout.
           ++ apply quiet_preserves, quiet_ret.
    + intros e. apply quiet_preserves, quiet_emit.
  - apply quiet_preserves, quiet_throw.
  - apply quiet_preserves, quiet_ret.
Qed.

Lemma getMarketDataByExchange_invariant (exchange : string) :
  preserves P (getMarketDataByExchange up exchange).
Proof.
  unfold getMarketDataByExchange.
  pose proof (initializeExchangeData_invariant exchange) as Hinit.
  destruct (Js.get EXCHANGE_STOCKS exchange) as [stocks|key|].
  - apply preserves_bind; [exact Hinit|].
    intros _. apply quiet_preserves, quiet_getMarketDataFromDB.
  - apply preserves_bind; [exact Hinit|].
    intros _. apply quiet_preserves, quiet_throw.
  - apply quiet_preserves, quiet_throw.
Qed.

Lemma addWatchedAsset_invariant (userId symbol : string) (isFavorite : bool)
    (extraData : option ExtraData.t) :
  preserves P (addWatchedAsset up userId symbol isFavorite extraData).
Proof.
  unfold addWatchedAsset. apply preserves_bind.
  - apply preserves_try_catch; [apply P_update|].
    intros e. apply quiet_preserves, quiet_emit.
  - intros _. apply quiet_preserves, quiet_watch_insert.
Qed.

Lemma toggleFavorite_invariant (userId symbol : string) :
  preserves P (toggleFavorite up userId symbol).
Proof.
  unfold toggleFavorite. apply preserves_bind.
  - apply quiet_preserves. intros w. split; [reflexivity | unfold exec; simpl; lia].
  - intros [|first rest].
    + apply addWatchedAsset_invariant.
    + apply quiet_preserves. intros w. split; [reflexivity | unfold exec; simpl; lia].
Qed.

(** What a refresh keeps true, and what only depends on the cache and on
    time going on, every method keeps true. *)
Lemma perform_invariant (c : Call) (w : World) : P w -> P (perform up c w).
Proof.
  destruct c; simpl perform.
  - apply P_update.
  - apply initializeNorwegianStocks_invariant.
  - apply quiet_preserves, quiet_getMarketDataFromDB.
  - apply getMarketDataByExchange_invariant.
  - apply initializeExchangeData_invariant.
  - apply (quiet_preserves (getUserWatchedAssets up userId)), quiet_getUserWatchedAssets.
  - apply addWatchedAsset_invariant.
  - apply toggleFavorite_invariant.
  - apply (quiet_preserves (removeWatchedAsset up userId symbol)), quiet_removeWatchedAsset.
Qed.

End CacheInvariant.

(** *** Rows stay *)

Lemma upsert_length {R : Type} (conflicts : R -> bool) (set : R -> R) (row : R)
    (rows : list R) :
  (List.length rows <= List.length (Pg.upsert conflicts set row rows))%nat.
Proof.
  unfold Pg.upsert. destruct (existsb conflicts rows).
  - rewrite length_map. lia.
  - rewrite length_app. simpl. lia.
Qed.

Lemma updateMarketData_keeps_cached (up : Upstream) (symbol s : string) :
  preserves (fun w => cached s w <> None) (updateMarketData up symbol).
Proof.
  intros w Hs.
  destruct (quote_reply up symbol (awaited w)) as [| | |quote] eqn:Hq.
  1-3: destruct (updateMarketData_throws up symbol w) as (_ & Hmd & _);
    [rewrite Hq; reflexivity | rewrite (cached_same_rows s _ _ Hmd); exact Hs].
  destruct (updateMarketData_returns up symbol w quote Hq)
    as (profile & sparklineData & id & t & _ & Hmd & _).
  destruct (String.eqb_spec symbol s) as [<-|Hne].
  - destruct (cached_present symbol (exec (updateMarketData up symbol) w)) as [r Hr].
    + rewrite Hmd. apply (upsert_key_present MarketData.symbol); reflexivity.
    + rewrite Hr. discriminate.
  - assert (cached s (exec (updateMarketData up symbol) w) = cached s w) as ->; [|exact Hs].
    eapply cached_other_symbol; [| |exact Hne|exact Hmd]; reflexivity.
Qed.

Lemma updateMarketData_keeps_length (up : Upstream) (symbol : string) (n : nat) :
  preserves (fun w => (n <= List.length (market_data w))%nat) (updateMarketData up symbol).
Proof.
  intros w Hn.
  destruct (quote_reply up symbol (awaited w)) as [| | |quote] eqn:Hq.
  1-3: destruct (updateMarketData_throws up symbol w) as (_ & Hmd & _);
    [rewrite Hq; reflexivity | rewrite Hmd; exact Hn].
  destruct (updateMarketData_returns up symbol w quote Hq)
    as (profile & sparklineData & id & t & _ & Hmd & _).
  rewrite Hmd.
  pose proof (upsert_length (symbol_is symbol) (set_quote quote sparklineData t)
                (quote_row symbol quote profile (stockInfo_of symbol) sparklineData id
                   (clock (exec (updateMarketData up symbol) w)))
                (market_data w)).
  lia.
Qed.

Lemma updateMarketData_caches (up : Upstream) (symbol : string) (w : World) :
  is_payload (quote_reply up symbol (awaited w)) = true ->
  cached symbol (exec (updateMarketData up symbol) w) <> None.
Proof.
  intros Hq. destruct (quote_reply up symbol (awaited w)) as [| | |quote] eqn:E;
    try discriminate.
  destruct (updateMarketData_returns up symbol w quote E)
    as (profile & sparklineData & id & t & _ & Hmd & _).
  destruct (cached_present symbol (exec (updateMarketData up symbol) w)) as [r Hr].
  - rewrite Hmd. apply (upsert_key_present MarketData.symbol); reflexivity.
  - rewrite Hr. discriminate.
Qed.

(** X11.  No method of the service ever removes a row from the cache:
    over any call, with whatever answers from the provider, a symbol that
    is cached stays cached and the number of cached rows does not go
    down. *)
Theorem cache_only_grows (up : Upstream) (c : Call) (w : World) :
  (forall symbol, cached symbol w <> None -> cached symbol (perform up c w) <> None) /\
  (List.length (market_data w) <= List.length (market_data (perform up c w)))%nat.
Proof.
  split.
  - intros symbol.
    apply (perform_invariant up (fun w0 => cached symbol w0 <> None)).
    + intros w0 w0' Hmd _. rewrite (cached_same_rows symbol _ _ Hmd). tauto.
    + intros s. apply updateMarketData_keeps_cached.
  - apply (perform_invariant up
             (fun w0 => (List.length (market_data w) <= List.length (market_data w0))%nat)).
    + intros w0 w0' Hmd _. rewrite Hmd. tauto.
    + intros s. apply updateMarketData_keeps_length.
    + lia.
Qed.

Lemma cache_only_grows_witness :
  let w := after_calls quotes_only 0 [UpdateMarketData "EQNR.OL"] in
  cached "EQNR.OL" w <> None /\
  cached "EQNR.OL" (perform rate_limited (GetMarketDataByExchange "OL") w) <> None.
Proof.
  intros w.
  assert (cached "EQNR.OL" w <> None) as Hc by (vm_compute; discriminate).
  split; [exact Hc|].
  apply (proj1 (cache_only_grows rate_limited (GetMarketDataByExchange "OL") w)
           "EQNR.OL"%string Hc).
Defined.

(** *** Rows are complete *)

Lemma updateMarketData_returns_points (up : Upstream) (symbol : string) (w : World)
    (quote : FinnhubQuote.t) :
  quote_reply up symbol (awaited w) = Payload quote ->
  let w' := exec (updateMarketData up symbol) w in
  exists profile sparklineData id t,
    market_data w' =
      Pg.upsert (symbol_is symbol) (set_quote quote sparklineData t)
        (quote_row symbol quote profile (stockInfo_of symbol) sparklineData id (clock w'))
        (market_data w) /\
    List.length sparklineData = 7%nat /\
    clock w <= t <= clock w'.
Proof.
  intros Hq. unfold updateMarketData. run. rewrite Hq. simpl.
  destruct (profile_reply up symbol (S (awaited w))); simpl;
    do 4 eexists; (split; [reflexivity|]); (split; [reflexivity|]); lia.
Qed.

Lemma written_by_service_later (now now' : Z) (r : MarketData.t) :
  now <= now' -> written_by_service now r -> written_by_service now' r.
Proof.
  intros Hle (H1 & H2 & H3 & H4 & H5 & H6 & H7 & H8 & H9 & H10 & H11 & t & Ht & Hnow).
  repeat split; try assumption. exists t. split; [exact Ht | lia].
Qed.

Lemma updateMarketData_writes_complete_rows (up : Upstream) (symbol : string) :
  preserves (fun w => Forall (written_by_service (clock w)) (market_data w))
    (updateMarketData up symbol).
Proof.
  intros w Hw.
  destruct (quote_reply up symbol (awaited w)) as [| | |quote] eqn:Hq.
  1-3: destruct (updateMarketData_throws up symbol w) as (_ & Hmd & _ & _ & _ & Hclock);
    [rewrite Hq; reflexivity|];
    rewrite Hmd; apply (Forall_impl _ (fun r => written_by_service_later _ _ r Hclock));
    exact Hw.
  destruct (updateMarketData_returns_points up symbol w quote Hq)
    as (profile & sparklineData & id & t & Hmd & Hlen & Ht).
  set (w' := exec (updateMarketData up symbol) w) in *.
  rewrite Hmd. rewrite Forall_forall in *. intros r Hr. unfold Pg.upsert in Hr.
  destruct (existsb (symbol_is symbol) (market_data w)).
  - apply in_map_iff in Hr. destruct Hr as [r0 [<- Hr0]].
    specialize (Hw r0 Hr0).
    destruct (symbol_is symbol r0).
    + destruct Hw as (H1 & H2 & H3 & H4 & H5 & _).
      repeat split; try assumption; try discriminate.
      * exists sparklineData. split; [reflexivity | exact Hlen].
      * exists t. split; [reflexivity | lia].
    + apply (written_by_service_later (clock w)); [lia | exact Hw].
  - apply in_app_iff in Hr. destruct Hr as [Hr|[<-|[]]].
    + apply (written_by_service_later (clock w)); [lia | apply Hw, Hr].
    + repeat split; try discriminate.
      * exists sparklineData. split; [reflexivity | exact Hlen].
      * exists (clock w'). split; [reflexivity | lia].
Qed.

(** X12.  Every row the service has put into a database that started
    empty is complete, whatever was called and whatever the provider
    answered: name, exchange, currency, sector, change, percent change,
    previous close, day high and day low are set although their columns
    are nullable, the volume is "N/A", the sparkline has seven points, and
    last-updated is set and not later than the clock. *)
Theorem cached_rows_complete (up : Upstream) (t0 : Z) (calls : list Call) :
  let w := after_calls up t0 calls in
  Forall (written_by_service (clock w)) (market_data w).
Proof.
  unfold after_calls.
  assert (Forall (written_by_service (clock (boot t0))) (market_data (boot t0))) as Hboot
    by constructor.
  revert Hboot. generalize (boot t0).
  induction calls as [|c calls IH]; intros w Hw; simpl; [exact Hw|].
  apply IH.
  apply (perform_invariant up
           (fun w0 => Forall (written_by_service (clock w0)) (market_data w0))).
  - intros w0 w0' Hmd Hclock H0. rewrite Hmd.
    apply (Forall_impl _ (fun r => written_by_service_later _ _ r Hclock)). exact H0.
  - apply updateMarketData_writes_complete_rows.
  - exact Hw.
Qed.

(* ===================================================================== *)
(** ** Loading an exchange *)
(* ===================================================================== *)

Lemma assoc_In {A : Type} (key : string) (obj : list (string * A)) (v : A) :
  Js.assoc key obj = Some v -> In v (map snd obj).
Proof.
  induction obj as [|[k x] obj IH]; simpl; [discriminate|].
  destruct (k =? key)%string.
  - intros E. injection E as ->. left. reflexivity.
  - intros E. right. apply IH, E.
Qed.

Lemma catalog_lists_nonempty (exchange : string) (stocks : list Stock.t) :
  Js.get EXCHANGE_STOCKS exchange = Js.Own stocks -> stocks <> [].
Proof.
  unfold Js.get. destruct (Js.assoc exchange EXCHANGE_STOCKS) as [items|] eqn:E.
  - intros H. injection H as <-. apply assoc_In in E.
    assert (forallb (fun l : list Stock.t => negb (Nat.eqb (List.length l) 0))
              (map snd EXCHANGE_STOCKS) = true) as Hall by reflexivity.
    rewrite forallb_forall in Hall. specialize (Hall items E).
    destruct items; [discriminate Hall | discriminate].
  - destruct (existsb (String.eqb exchange) Js.Object_prototype); discriminate.
Qed.

Lemma upsert_keeps_cached (symbol s : string) (set : MarketData.t -> MarketData.t)
    (row : MarketData.t) (w w' : World) :
  (forall r, MarketData.symbol (set r) = MarketData.symbol r) ->
  MarketData.symbol row = symbol ->
  market_data w' = Pg.upsert (symbol_is symbol) set row (market_data w) ->
  cached symbol w' <> None /\ (cached s w <> None -> cached s w' <> None).
Proof.
  intros Hset Hrow Hmd.
  assert (cached symbol w' <> None) as Hown.
  { destruct (cached_present symbol w') as [r Hr]; [|rewrite Hr; discriminate].
    rewrite Hmd. apply (upsert_key_present MarketData.symbol); assumption. }
  split; [exact Hown|]. intros Hs.
  destruct (String.eqb_spec symbol s) as [<-|Hne]; [exact Hown|].
  rewrite (cached_other_symbol s symbol set row w w' Hset Hrow Hne Hmd). exact Hs.
Qed.

Lemma initializeExchangeData_body_keeps_cached (up : Upstream) (exchange s : string)
    (stock : Stock.t) :
  preserves (fun w => cached s w <> None) (initializeExchangeData_body up exchange stock).
Proof.
  intros w Hs.
  destruct (initializeExchangeData_body_cases up exchange stock w)
    as (_ & _ & [(_ & Hmd & _)|[(_ & _ & Hmd & _)|(_ & _ & _ & _ & Hok)]]).
  1-2: rewrite (cached_same_rows s _ _ Hmd); exact Hs.
  destruct Hok as (quote & profile & sparklineData & id & t & now & _ & Hmd & _).
  refine (proj2 (upsert_keeps_cached (Stock.symbol stock) s _ _ w _ _ _ Hmd) Hs);
    reflexivity.
Qed.

Lemma initializeExchangeData_body_caches (up : Upstream) (exchange : string)
    (stock : Stock.t) (w : World) :
  (forall symbol n, is_payload (quote_reply up symbol n) = true) ->
  cached (Stock.symbol stock) (exec (initializeExchangeData_body up exchange stock) w)
  <> None.
Proof.
  intros Hserved.
  destruct (initializeExchangeData_body_cases up exchange stock w)
    as (_ & _ & [(Hfresh & Hmd & _)|[(_ & Hfail & _)|(_ & _ & _ & _ & Hok)]]).
  - rewrite (cached_same_rows _ _ _ Hmd). unfold shouldUpdate_at in Hfresh.
    destruct (cached (Stock.symbol stock) w); discriminate.
  - rewrite Hserved in Hfail. discriminate.
  - destruct Hok as (quote & profile & sparklineData & id & t & now & _ & Hmd & _).
    refine (proj1 (upsert_keeps_cached (Stock.symbol stock) (Stock.symbol stock)
                     _ _ w _ _ _ Hmd));
      reflexivity.
Qed.

Lemma initializeNorwegianStocks_body_market_data (up : Upstream) (stock : Stock.t)
    (w : World) :
  market_data (exec (initializeNorwegianStocks_body up stock) w)
  = market_data (exec (updateMarketData up (Stock.symbol stock)) w).
Proof.
  unfold initializeNorwegianStocks_body.
  rewrite exec_try_catch, outcome_bind, exec_bind.
  destruct (outcome (updateMarketData up (Stock.symbol stock)) w).
  - destruct (setTimeout_run up 1100 (exec (updateMarketData up (Stock.symbol stock)) w))
      as (Hout & _ & _ & Hmd & _).
    rewrite Hout. exact Hmd.
  - reflexivity.
Qed.

(** A loop whose turns keep cached symbols cached, and cache their own,
    leaves every stock of the list cached. *)
Lemma for_of_caches (body : Stock.t -> Async unit) (l : list Stock.t) (w : World) :
  (forall x, total (body x)) ->
  (forall s x, preserves (fun w0 => cached s w0 <> None) (body x)) ->
  (forall x w0, cached (Stock.symbol x) (exec (body x) w0) <> None) ->
  forall stock, In stock l ->
    cached (Stock.symbol stock) (exec (for_of l body) w) <> None.
Proof.
  intros Htotal Hkeeps Hcaches. revert w.
  induction l as [|x l IH]; intros w stock Hin; [destruct Hin|].
  rewrite for_of_cons by assumption.
  destruct Hin as [<-|Hin]; [|apply IH, Hin].
  apply (for_of_preserves (fun w0 => cached (Stock.symbol x) w0 <> None)).
  - intros y. apply Hkeeps.
  - apply Hcaches.
Qed.

Lemma getMarketDataByExchange_rows (up : Upstream) (w : World)
    (exchange : string) (stocks : list Stock.t) :
  Js.get EXCHANGE_STOCKS exchange = Js.Own stocks ->
  let m := getMarketDataByExchange up exchange in
  let w1 := exec (initializeExchangeData up exchange) w in
  outcome m w
  = Return (filter (fun r => Pg.mem (MarketData.symbol r) (map Stock.symbol stocks))
              (market_data w1)) /\
  market_data (exec m w) = market_data w1.
Proof.
  intros Hget m w1.
  pose proof (catalog_lists_nonempty exchange stocks Hget) as Hne.
  destruct (exchange_lookup_own up w exchange stocks Hget) as [Hinit _].
  unfold m, getMarketDataByExchange. rewrite Hget, outcome_bind, exec_bind, Hinit.
  fold w1. destruct stocks as [|stock stocks']; [contradiction|].
  split; reflexivity.
Qed.



(** X14.  [GET /api/market/live/:exchange] answers 200 with the rows of
    the exchange for a code of the catalog.  For every other code it
    answers 500 with "Failed to fetch live market data", whether the
    service threw "Unsupported exchange" or a TypeError, and nothing has
    been requested or changed. *)
Theorem market_live_answers (up : Upstream) (w : World) (exchange : string) :
  match Js.assoc exchange EXCHANGE_STOCKS with
  | Some stocks =>
      exists rows,
        outcome (market_live up exchange) w = Return (Route.json (Route.Rows rows)) /\
        Forall (fun r => In (MarketData.symbol r) (map Stock.symbol stocks)) rows
  | None =>
      exists error,
        market_live up exchange w
        = (Return (Route.failed "Error fetching live market data:" error
                     "Failed to fetch live market data"), w) /\
        outcome (getMarketDataByExchange up exchange) w = Throw error
  end.
Proof.
  destruct (Js.assoc exchange EXCHANGE_STOCKS) as [stocks|] eqn:Hassoc.
  - assert (Js.get EXCHANGE_STOCKS exchange = Js.Own stocks) as Hget
      by (unfold Js.get; rewrite Hassoc; reflexivity).
    destruct (getMarketDataByExchange_rows up w exchange stocks Hget) as [Hout _].
    eexists. split.
    + unfold market_live. rewrite outcome_try_catch, outcome_bind, Hout. reflexivity.
    + apply Forall_forall. intros r Hr. apply filter_In in Hr. destruct Hr as [_ Hr].
      unfold Pg.mem in Hr. apply existsb_exists in Hr. destruct Hr as [s [Hs E]].
      apply String.eqb_eq in E. rewrite E. exact Hs.
  - unfold market_live, getMarketDataByExchange, initializeExchangeData, Js.get.
    rewrite Hassoc.
    destruct (existsb (String.eqb exchange) Js.Object_prototype);
      eexists; split; reflexivity.
Qed.



(** X16.  For a code that is neither an exchange of the catalog nor a name
    inherited from [Object.prototype], [getMarketDataByExchange] throws
    "Unsupported exchange: <code>" and [initializeExchangeData] returns;
    neither requests anything, waits, logs or changes a table. *)
Theorem exchange_lookup_unknown_code (up : Upstream) (w : World) (exchange : string) :
  Js.assoc exchange EXCHANGE_STOCKS = None ->
  existsb (String.eqb exchange) Js.Object_prototype = false ->
  getMarketDataByExchange up exchange w
  = (Throw (Error ("Unsupported exchange: " ++ exchange)%string), w) /\
  initializeExchangeData up exchange w = (Return tt, w).
Proof.
  intros Hassoc Hproto. apply exchange_lookup_undefined.
  unfold Js.get. rewrite Hassoc, Hproto. reflexivity.
Qed.

Lemma exchange_lookup_unknown_code_witness :
  Js.assoc "NASDAQ" EXCHANGE_STOCKS = None /\
  existsb (String.eqb "NASDAQ") Js.Object_prototype = false /\
  getMarketDataByExchange quotes_only "NASDAQ" (boot 0)
  = (Throw (Error "Unsupported exchange: NASDAQ"), boot 0).
Proof.
  split; [reflexivity|]. split; [reflexivity|].
  apply (exchange_lookup_unknown_code quotes_only (boot 0) "NASDAQ" eq_refl eq_refl).
Defined.

(** The one record of the example list comes back joined with no quote. *)
Lemma getUserWatchedAssets_joined_and_ordered_witness :
  unique_symbols sample_watch_world /\
  exists rows,
    outcome (getUserWatchedAssets quotes_only "dev-user") sample_watch_world = Return rows /\
    List.length rows = 1%nat.
Proof.
  assert (unique_symbols sample_watch_world) as Hu by constructor.
  split; [exact Hu|].
  destruct (getUserWatchedAssets_joined_and_ordered quotes_only sample_watch_world
              "dev-user") as (_ & _ & _ & rows & Hout & _ & _ & Hlen).
  exists rows. split; [exact Hout|]. rewrite (Hlen Hu). reflexivity.
Defined.



(** *** How old an answer can be *)

Lemma initializeExchangeData_body_updated (up : Upstream) (exchange s : string)
    (start : Z) (stock : Stock.t) (w : World) :
  start <= clock w ->
  let w' := exec (initializeExchangeData_body up exchange stock) w in
  (updated_since (start - 5 * 60 * 1000) s w ->
   updated_since (start - 5 * 60 * 1000) s w') /\
  ((forall symbol n, is_payload (quote_reply up symbol n) = true) ->
   updated_since (start - 5 * 60 * 1000) (Stock.symbol stock) w').
Proof.
  intros Hstart w'.
  assert (forall x quote profile sparklineData id t now,
            market_data w' =
              Pg.upsert (symbol_is x) (set_quote quote sparklineData t)
                (quote_row x quote profile (stockInfo_of x) sparklineData id now)
                (market_data w) ->
            clock w <= t <= now ->
            updated_since (start - 5 * 60 * 1000) x w') as Hupsert.
  { intros x quote profile sparklineData id t now Hmd Ht.
    destruct (cached_present x w') as [r Hr].
    { rewrite Hmd. apply (upsert_key_present MarketData.symbol); reflexivity. }
    destruct (cached_In x w' r Hr) as [Hin Hsym]. rewrite Hmd in Hin.
    destruct (upsert_holds_quote x quote profile (stockInfo_of x) sparklineData id
                (clock w) t now (market_data w) r Ht Hin Hsym)
      as (_ & _ & _ & _ & _ & _ & _ & t' & Hlast & Ht').
    exists r. split; [exact Hr|]. rewrite Hlast. simpl. lia. }
  destruct (initializeExchangeData_body_cases up exchange stock w)
    as (_ & _ & [(Hfresh & Hmd & _)|[(_ & Hfail & Hmd & _)|(_ & _ & _ & _ & Hok)]]);
    fold w' in Hmd || fold w' in Hok.
  - split.
    + intros (r & Hr & Hage). exists r. rewrite (cached_same_rows s _ _ Hmd).
      split; assumption.
    + intros _. unfold shouldUpdate_at in Hfresh.
      destruct (cached (Stock.symbol stock) w) as [existing|] eqn:Hc; [|discriminate].
      exists existing. rewrite (cached_same_rows _ _ _ Hmd). split; [exact Hc|].
      apply Z.ltb_ge in Hfresh. lia.
  - split.
    + intros (r & Hr & Hage). exists r. rewrite (cached_same_rows s _ _ Hmd).
      split; assumption.
    + intros Hserved. rewrite Hserved in Hfail. discriminate.
  - destruct Hok as (quote & profile & sparklineData & id & t & now & _ & Hmd & Ht & _).
    assert (clock w <= t <= now) as Ht' by lia.
    split; [|intros _; apply (Hupsert _ _ _ _ _ _ _ Hmd Ht')].
    intros (r & Hr & Hage).
    destruct (String.eqb_spec (Stock.symbol stock) s) as [<-|Hne].
    + apply (Hupsert _ _ _ _ _ _ _ Hmd Ht').
    + exists r. split; [|exact Hage].
      rewrite <- Hr. eapply cached_other_symbol; [| |exact Hne|exact Hmd]; reflexivity.
Qed.

Lemma initializeExchangeData_loop_updated (up : Upstream) (exchange : string)
    (start : Z) (l : list Stock.t) (w : World) :
  (forall symbol n, is_payload (quote_reply up symbol n) = true) ->
  start <= clock w ->
  forall stock, In stock l ->
    updated_since (start - 5 * 60 * 1000) (Stock.symbol stock)
      (exec (for_of l (initializeExchangeData_body up exchange)) w).
Proof.
  intros Hserved. revert w.
  induction l as [|x l IH]; intros w Hstart stock Hin; [destruct Hin|].
  rewrite for_of_cons by apply initializeExchangeData_body_total.
  pose proof (initializeExchangeData_body_clock up exchange x w) as Hclock.
  destruct Hin as [<-|Hin]; [|apply IH; [lia | exact Hin]].
  apply (for_of_preserves
           (fun w0 => start <= clock w0 /\
                      updated_since (start - 5 * 60 * 1000) (Stock.symbol x) w0)).
  - intros y w0 [H0 Hu].
    pose proof (initializeExchangeData_body_clock up exchange y w0).
    split; [lia|].
    apply (initializeExchangeData_body_updated up exchange (Stock.symbol x) start y w0 H0).
    exact Hu.
  - split; [lia|].
    apply (initializeExchangeData_body_updated up exchange (Stock.symbol x) start x w Hstart).
    exact Hserved.
Qed.


